(** * AntTracker: the frame segmentation pipeline

    A shallow embedding of [ant_tracker/tracker/segmenter.py]: the two
    movement maskers ([_get_mask], [_get_mask_mog2]), the two blob extractors
    ([_get_blobs_logw], [_get_blobs_doh]) and the incremental [Segmenter]
    (its resumable generators, [is_finished], [encode] and [decode]).

    Conventions.
    - Python integers are [Z]; Python floats are exact rationals [Q]
      (rounding of float arithmetic is not modelled).
    - A [dict] keeps its insertion order, so it is an association list.
    - [segmenter.py] never changes a list of blobs after it has built it, so
      such a list is a value, also where the table, a generator and the
      caller hold the same one.
    - Raised exceptions are values of [exn]; fallible code lives in [result].
    - OpenCV, scikit-image and SciPy are external: their functions are the
      methods of the classes [Cv2], [Skimage] and [Scipy].  The modules of the
      repository that [segmenter.py] imports ([blob], [common], [parameters])
      are the class [Collaborators]. *)

From Stdlib Require Import List ZArith QArith Qabs Qround Bool String Ascii Lia.
From Stdlib Require Import DecimalString DecimalPos DecimalZ.
Import ListNotations.

Set Implicit Arguments.
Local Open Scope Z_scope.

(** ** Exceptions and the error monad *)

Inductive exn : Type :=
| ValueError_no_video            (* "Este segmentador no tiene un video cargado. Use set_video()" *)
| ValueError_frame (n : Z)       (* "Frame {n} inexistente" *)
| ValueError_prev_blobs (n : Z)  (* "Debe proporcionar los blobs del frame anterior ({n}): ..." *)
| ValueError_max_empty           (* max() of an empty dict *)
| ValueError_remove              (* list.remove(x): x not in list *)
| ValueError_int (s : string)    (* int() of a string that is no numeral *)
| AttributeError_video           (* the attribute __video was never set *)
| IndexError
| KeyError_not_segmented         (* "Ese cuadro no fue segmentado aun" *)
| NotImplementedError.

Inductive result (A : Type) : Type :=
| Ok (a : A)
| Raise (e : exn).
Arguments Raise {A} e.

Definition bind {A B} (r : result A) (k : A -> result B) : result B :=
  match r with
  | Ok a => k a
  | Raise e => Raise e
  end.

Notation "x <- r ;; k" := (bind r (fun x => k))
  (at level 61, r at next level, right associativity).

Definition of_option {A} (e : exn) (o : option A) : result A :=
  match o with
  | Some a => Ok a
  | None => Raise e
  end.

(** [for x in xs: acc = body(acc, x)], where the body may raise. *)
Fixpoint for_each {A S} (body : S -> A -> result S) (xs : list A) (acc : S)
  : result S :=
  match xs with
  | [] => Ok acc
  | x :: xs' => acc' <- body acc x ;; for_each body xs' acc'
  end.

(** ** Built-ins *)

(** [range(a, b)]. *)
Definition range (a b : Z) : list Z :=
  map (fun i => a + Z.of_nat i) (seq 0 (Z.to_nat (b - a))).

(** [enumerate(xs, start)]. *)
Fixpoint enumerate {A} (xs : list A) (start : Z) : list (Z * A) :=
  match xs with
  | [] => []
  | x :: xs' => (start, x) :: enumerate xs' (start + 1)
  end.

(** [max(xs)]: [None] stands for the ValueError on an empty iterable. *)
Definition py_max (xs : list Z) : option Z :=
  match xs with
  | [] => None
  | x :: xs' => Some (fold_left Z.max xs' x)
  end.

(** [str(n)] for an integer [n]. *)
Definition py_str (n : Z) : string :=
  NilZero.string_of_int (Z.to_int n).

(** [int(s)] for a string [s]: an optional minus sign and decimal digits
    (the form [str] produces); anything else raises ValueError. *)
Definition py_int (s : string) : result Z :=
  match NilZero.int_of_string s with
  | Some d => Ok (Z.of_int d)
  | None => Raise (ValueError_int s)
  end.

(** [int(x)] for a float [x]: truncation towards zero. *)
Definition int_of_float (x : Q) : Z :=
  Z.quot (Qnum x) (Zpos (Qden x)).


Definition Qlt_bool (a b : Q) : bool := negb (Qle_bool b a).

(** ** Dictionaries *)

Class EqKey (K : Type) := {
  key_eqb : K -> K -> bool;
  key_eqb_spec : forall a b, reflect (a = b) (key_eqb a b)
}.

#[export] Instance EqKey_Z : EqKey Z :=
  {| key_eqb := Z.eqb; key_eqb_spec := Z.eqb_spec |}.

#[export] Instance EqKey_string : EqKey string :=
  {| key_eqb := String.eqb; key_eqb_spec := String.eqb_spec |}.

Section Dict.
Context {K V : Type} `{EqKey K}.

Definition dict := list (K * V).

(** [d.get(k)] *)
Fixpoint dict_get (k : K) (d : dict) : option V :=
  match d with
  | [] => None
  | (k', v) :: d' => if key_eqb k k' then Some v else dict_get k d'
  end.

(** [k in d] *)
Definition dict_contains (k : K) (d : dict) : bool :=
  match dict_get k d with
  | Some _ => true
  | None => false
  end.

(** [d[k] = v]: a present key keeps its position, a new key goes last. *)
Fixpoint dict_set (k : K) (v : V) (d : dict) : dict :=
  match d with
  | [] => [(k, v)]
  | (k', v') :: d' =>
      if key_eqb k k' then (k', v) :: d' else (k', v') :: dict_set k v d'
  end.

(** [d.keys()], [d.items()] in insertion order. *)
Definition dict_keys (d : dict) : list K := map fst d.
Definition dict_items (d : dict) : list (K * V) := d.

(** [dict(pairs)] *)
Definition dict_of_items (pairs : list (K * V)) : dict :=
  fold_left (fun acc kv => dict_set (fst kv) (snd kv) acc) pairs [].

(** The keys of a dictionary are pairwise distinct. *)
Definition dict_wf (d : dict) : Prop := NoDup (dict_keys d).
End Dict.
Arguments dict K V : clear implicits.

(** ** Arrays *)

(** A two-dimensional numpy array: its shape (rows, columns) and its
    elements in row-major order. *)
Record ndarray (A : Type) : Type := mk_ndarray {
  shape : nat * nat;
  data : list A
}.

Definition BinaryMask := ndarray bool.
Definition GrayscaleImage := ndarray Q.
Definition LabelImage := ndarray Z.
Definition ByteImage := ndarray Z.     (* dtype uint8 *)

Section Numpy.
Context {A B C : Type}.

(** [np.size(a)] *)
Definition np_size (a : ndarray A) : nat := fst (shape a) * snd (shape a).

(** [np.zeros(shape)], with the zero [z] of the dtype. *)
Definition np_zeros (sh : nat * nat) (z : A) : ndarray A :=
  mk_ndarray sh (repeat z (fst sh * snd sh)).

(** [np.zeros_like(a, dtype)] *)
Definition np_zeros_like (a : ndarray B) (z : A) : ndarray A :=
  np_zeros (shape a) z.

(** An element-wise unary operation. *)
Definition np_map (f : A -> B) (a : ndarray A) : ndarray B :=
  mk_ndarray (shape a) (map f (data a)).

(** An element-wise binary operation on two arrays of one shape. *)
Definition np_map2 (f : A -> B -> C) (a : ndarray A) (b : ndarray B)
  : ndarray C :=
  mk_ndarray (shape a) (map (fun p => f (fst p) (snd p)) (combine (data a) (data b))).

(** [np.count_nonzero(a)], [a.any()], given the truth value of an element. *)
Definition np_count_nonzero (truth : A -> bool) (a : ndarray A) : nat :=
  List.length (filter truth (data a)).

Definition np_any (truth : A -> bool) (a : ndarray A) : bool :=
  existsb truth (data a).

(** [a[r, c]]: a negative index counts from the end, an index out of the
    array raises IndexError. *)
Definition normalize_index (i : Z) (n : nat) : option nat :=
  if (0 <=? i) && (i <? Z.of_nat n) then Some (Z.to_nat i)
  else if (i <? 0) && (- Z.of_nat n <=? i) then Some (Z.to_nat (Z.of_nat n + i))
  else None.

Definition np_getitem (a : ndarray A) (rc : Z * Z) : result A :=
  match normalize_index (fst rc) (fst (shape a)),
        normalize_index (snd rc) (snd (shape a)) with
  | Some r, Some c =>
      of_option IndexError (nth_error (data a) (r * snd (shape a) + c)%nat)
  | _, _ => Raise IndexError
  end.

Fixpoint list_set (l : list A) (i : nat) (v : A) : list A :=
  match l, i with
  | [], _ => []
  | _ :: l', O => v :: l'
  | x :: l', S i' => x :: list_set l' i' v
  end.

(** [a[r, c] = v], for coordinates inside the array. *)
Definition np_setitem (a : ndarray A) (rc : Z * Z) (v : A) : result (ndarray A) :=
  match normalize_index (fst rc) (fst (shape a)),
        normalize_index (snd rc) (snd (shape a)) with
  | Some r, Some c =>
      Ok (mk_ndarray (shape a) (list_set (data a) (r * snd (shape a) + c)%nat v))
  | _, _ => Raise IndexError
  end.

(** [a[rr, cc] = v], for coordinate lists as [skimage.draw] returns them. *)
Definition np_setitems (a : ndarray A) (rcs : list (Z * Z)) (v : A)
  : result (ndarray A) :=
  for_each (fun acc rc => np_setitem acc rc v) rcs a.
End Numpy.

Definition truth_bool (b : bool) : bool := b.
Definition truth_Z (z : Z) : bool := negb (z =? 0).
Definition truth_Q (q : Q) : bool := negb (Qeq_bool q 0).

(** ** External libraries *)

Inductive MorphOp : Type := MORPH_CLOSE | MORPH_OPEN.

(** OpenCV ([cv2]).  A background subtractor is stateful: [apply] returns the
    updated subtractor next to the foreground mask. *)
Class Cv2 : Type := {
  Subtractor : Type;
  Contour : Type;
  createBackgroundSubtractorMOG2 : bool -> Z -> Subtractor;
  subtractor_apply : Subtractor -> GrayscaleImage -> Subtractor * ByteImage;
  cv_threshold_binary : GrayscaleImage -> Q -> Q -> GrayscaleImage;
  cv_subtract : ByteImage -> GrayscaleImage -> ByteImage;
  cv_morphologyEx : ByteImage -> MorphOp -> ByteImage -> ByteImage;
  cv_dilate : ByteImage -> ByteImage -> ByteImage;
  cv_getStructuringElement_ellipse : Z * Z -> ByteImage;
  cv_findContours_external : ByteImage -> list Contour;
  cv_contourArea : Contour -> Q;
  cv_approxPolyDP : Contour -> Q -> bool -> Contour;
  cv_fillPoly : ByteImage -> list Contour -> Z -> ByteImage;
  cv_GaussianBlur : GrayscaleImage -> Z * Z -> Q -> GrayscaleImage;
  cv_filter2D_32F : ndarray Z -> list Q -> GrayscaleImage
}.

(** One region of [skimage.measure.regionprops]. *)
Record RegionProperties : Type := mk_region {
  area : Q;
  label : Z
}.

(** scikit-image.  [threshold_isodata] answers [None] where the library
    raises IndexError. *)
Class Skimage : Type := {
  skmorph_disk : Z -> ByteImage;
  img_as_uint : GrayscaleImage -> ndarray Z;
  skfilters_threshold_isodata : GrayscaleImage -> option Q;
  skfilters_gaussian : GrayscaleImage -> Q -> GrayscaleImage;
  skfilters_laplace : GrayscaleImage -> BinaryMask -> GrayscaleImage;
  skdraw_disk : Q * Q -> Z -> nat * nat -> list (Z * Z);
  skseg_watershed : GrayscaleImage -> LabelImage -> BinaryMask -> LabelImage;
  skmeasure_label : BinaryMask -> LabelImage * Z;
  skmeasure_regionprops : LabelImage -> list RegionProperties;
  skfeature_blob_doh : GrayscaleImage -> Q -> Q -> Z -> list (Q * Q * Q)
}.

(** SciPy: [cKDTree(points).query_ball_point(x, r)], the indices of the
    points within distance [r] of [x]. *)
Class Scipy : Type := {
  query_ball_point : list (Q * Q) -> Q * Q -> Q -> list nat
}.

(** ** Parameters *)

(** Modelled from the spec: the parameter containers of
    [tracker/parameters.py] are missing from the sources.  The fields are the
    attributes that [segmenter.py] reads, which are the names the
    specification lists for the shared, LogW and DoH parameter sets. *)
Record SegmenterParameters : Type := mk_params {
  movement_detection_threshold : Q;
  discard_percentage : Q;
  minimum_ant_radius : Q;
  movement_detection_history : Z;
  approx_tolerance : Q;
  gaussian_sigma : Q;
  doh_min_sigma : Q;
  doh_max_sigma : Q;
  doh_num_sigma : Z
}.

(** ** Collaborators inside the repository *)

(** The modules [blob], [common] and [parameters], which [segmenter.py]
    imports and which are missing from the sources, as an interface: the
    colour frames of a video and [rgb2gray]; the [Blob] type with its
    constructor [Blob(imshape, mask, approx_tolerance)], its [center_xy]
    (x first) and [radius], and its [encode] and [decode(data, shape)]; the
    [items()] of a parameter container and the constructor
    [SegmenterParameters(mapping)]. *)
Class Collaborators : Type := {
  ColorImage : Type;
  rgb2gray : ColorImage -> GrayscaleImage;
  color_shape : ColorImage -> nat * nat;
  Blob : Type;
  BlobSerial : Type;
  Blob_new : nat * nat -> BinaryMask -> Q -> Blob;
  center_xy : Blob -> Q * Q;
  radius : Blob -> Q;
  Blob_encode : Blob -> BlobSerial;
  Blob_decode : BlobSerial -> nat * nat -> Blob;
  params_items : SegmenterParameters -> list (string * Q);
  SegmenterParameters_of_dict : dict string Q -> SegmenterParameters
}.

(** ** Movement maskers *)

(** [np.pi], the double nearest to pi. *)
Definition np_pi : Q := 884279719003555 # 281474976710656.

Definition minimum_ant_area (min_radius : Q) : Q :=
  (np_pi * (min_radius * min_radius))%Q.

Definition maximum_clear_radius (radius : Q) : Q := (radius * 3)%Q.






(** The test [np.count_nonzero(mask) > np.size(mask) * discard_percentage]. *)
Definition full_of_movement {A} (truth : A -> bool) (mask : ndarray A)
  (params : SegmenterParameters) : bool :=
  Qlt_bool (inject_Z (Z.of_nat (np_size mask)) * discard_percentage params)
           (inject_Z (Z.of_nat (np_count_nonzero truth mask))).

Section Maskers.
Context {cv : Cv2} {sk : Skimage}.



Definition kernel (r : Q) : ByteImage :=
  cv_getStructuringElement_ellipse (int_of_float r, int_of_float r).

(** The mask of [_get_mask_mog2] before the camera-movement test
    (lines 53-60), with the subtractor as [apply] leaves it. *)
Definition foreground_cleaned (subt : Subtractor) (frame : GrayscaleImage)
  (params : SegmenterParameters) : Subtractor * ByteImage :=
  let (subt', mask) := subtractor_apply subt frame in
  let lamina :=
    cv_threshold_binary
      (np_map2 (fun (f : Q) (m : Z) => if truth_Z m then f else 0%Q) frame mask)
      150 255 in
  let mask := cv_subtract mask lamina in
  let r := minimum_ant_radius params in
  let mask := cv_morphologyEx mask MORPH_CLOSE (kernel r) in
  let mask := cv_morphologyEx mask MORPH_OPEN (kernel (r * (8 # 10))) in
  (subt', mask).

Definition _get_mask_mog2 (subt : Subtractor) (frame : GrayscaleImage)
  (params : SegmenterParameters) : Subtractor * BinaryMask :=
  let (subt', mask) := foreground_cleaned subt frame params in
  if full_of_movement truth_Z mask params
  then (subt', np_zeros (shape mask) false)
  else
    let contours := cv_findContours_external mask in
    let mask := np_zeros_like mask 0 in
    let min_area := minimum_ant_area (minimum_ant_radius params) in
    let contours :=
      map (fun cont => cv_approxPolyDP cont (1 # 100) true)
          (filter (fun cont => Qlt_bool min_area (cv_contourArea cont)) contours) in
    let mask := cv_fillPoly mask contours 255 in
    (subt', np_map truth_Z mask).
End Maskers.

(** ** Blob extractors *)

(** [l.remove(x)]: drops the first occurrence, raises ValueError without one. *)
Fixpoint list_remove (x : nat) (l : list nat) : result (list nat) :=
  match l with
  | [] => Raise ValueError_remove
  | y :: l' =>
      if (x =? y)%nat then Ok l'
      else (r <- list_remove x l' ;; Ok (y :: r))
  end.

(** [np.unique(l)]: the distinct elements in ascending order. *)
Fixpoint insert_unique (x : nat) (l : list nat) : list nat :=
  match l with
  | [] => [x]
  | y :: l' =>
      if (x <? y)%nat then x :: l
      else if (x =? y)%nat then l
      else y :: insert_unique x l'
  end.

Definition np_unique (l : list nat) : list nat := fold_right insert_unique [] l.

(** [enumerate(xs)] with positions as list indices. *)
Definition enumerate_nat {A} (xs : list A) : list (nat * A) :=
  combine (seq 0 (List.length xs)) xs.

Section Extractors.
Context {cv : Cv2} {sk : Skimage} {sp : Scipy} {co : Collaborators}.

Definition Blobs := list Blob.

(** The loop that closes both extractors, and the watershed stage of the
    first:
<<
    for p in props:
        if p.area < minimum_ant_area(params.minimum_ant_radius):
            continue
        blobs.append(Blob(imshape=frame.shape, mask=(labels == p.label), ...))
>>  *)
Definition region_blob (imshape : nat * nat) (labels : LabelImage)
  (params : SegmenterParameters) (p : RegionProperties) : Blob :=
  Blob_new imshape (np_map (fun l => l =? label p) labels) (approx_tolerance params).

Definition too_small (params : SegmenterParameters) (p : RegionProperties) : bool :=
  Qlt_bool (area p) (minimum_ant_area (minimum_ant_radius params)).

Definition append_region_blobs (blobs : Blobs) (imshape : nat * nat)
  (labels : LabelImage) (params : SegmenterParameters) : Blobs :=
  fold_left
    (fun blobs p =>
       if too_small params p then blobs
       else blobs ++ [region_blob imshape labels params p])
    (skmeasure_regionprops labels) blobs.

(** Lines 84-87: the masked Laplacian of the blurred frame. *)
Definition logw_response (frame : GrayscaleImage) (movement_mask : BinaryMask)
  (params : SegmenterParameters) : GrayscaleImage :=
  let ksize := int_of_float (4 * gaussian_sigma params + (1 # 2))%Q * 2 + 1 in
  let gauss := img_as_uint (cv_GaussianBlur frame (ksize, ksize) (gaussian_sigma params)) in
  np_map2 (fun (x : Q) (m : bool) => if m then x else 0%Q)
          (cv_filter2D_32F gauss [1 # 8; - (1); 1 # 8]%Q) movement_mask.

(** Lines 103-112: the blobs of the previous frame that have another one
    within their clear radius. *)
Definition close_indices (prev_blobs : Blobs) (points : list (Q * Q))
  : result (list nat) :=
  idx <- for_each
           (fun idx ib =>
              let i := fst ib in
              let blob := snd ib in
              pt <- of_option IndexError (nth_error points i) ;;
              let new := query_ball_point points pt (maximum_clear_radius (radius blob)) in
              new <- (if (List.length new =? 1)%nat then list_remove i new else Ok new) ;;
              Ok (idx ++ new))
           (enumerate_nat (removelast prev_blobs)) [] ;;
  Ok (np_unique idx).

(** Lines 114-124: the clear disk of every close blob goes into the
    intersection zone, a smaller disk labelled [idx + 1] (in uint8) into
    the markers. *)
Definition draw_close_markers (frame : GrayscaleImage) (prev_blobs : Blobs)
  (points : list (Q * Q)) (params : SegmenterParameters)
  (intersection_zone : BinaryMask) (close_idx : list nat)
  : result (BinaryMask * ByteImage) :=
  for_each
    (fun zm idx =>
       let zone := fst zm in
       let markers := snd zm in
       pt <- of_option IndexError (nth_error points idx) ;;
       blob <- of_option IndexError (nth_error prev_blobs idx) ;;
       zone <- np_setitems zone
                 (skdraw_disk pt (int_of_float (maximum_clear_radius (radius blob)))
                              (shape zone))
                 true ;;
       markers <- np_setitems markers
                    (skdraw_disk pt (int_of_float (minimum_ant_radius params * (3 # 2))%Q)
                                 (shape zone))
                    ((Z.of_nat idx + 1) mod 256) ;;
       Ok (zone, markers))
    close_idx (intersection_zone, np_zeros_like frame 0).

(** Lines 100-138: the watershed among blobs that were close in the last
    frame.  Answers the blobs found and the intersection zone. *)
Definition logw_watershed_stage (frame : GrayscaleImage) (intensity_mask : BinaryMask)
  (params : SegmenterParameters) (prev_blobs : Blobs)
  : result (Blobs * BinaryMask) :=
  let blobs : Blobs := [] in
  let intersection_zone : BinaryMask := np_zeros_like frame false in
  if (1 <? List.length prev_blobs)%nat then
    let points := map (fun blob => (snd (center_xy blob), fst (center_xy blob))) prev_blobs in
    close_idx <- close_indices prev_blobs points ;;
    if (0 <? List.length close_idx)%nat then
      zm <- draw_close_markers frame prev_blobs points params intersection_zone close_idx ;;
      let intersection_zone := fst zm in
      let close_markers_labels :=
        skseg_watershed (np_zeros_like frame 0%Q) (snd zm)
                        (np_map2 andb intensity_mask intersection_zone) in
      Ok (append_region_blobs blobs (shape frame) close_markers_labels params,
          intersection_zone)
    else Ok (blobs, intersection_zone)
  else Ok (blobs, intersection_zone).

(** Line 141: the connected components outside the intersection zone. *)
Definition logw_component_labels (intensity_mask intersection_zone : BinaryMask)
  : LabelImage :=
  fst (skmeasure_label (np_map2 andb intensity_mask (np_map negb intersection_zone))).

Definition _get_blobs_logw (frame : GrayscaleImage) (movement_mask : BinaryMask)
  (params : SegmenterParameters) (prev_blobs : Blobs) : result Blobs :=
  let empty : Blobs := [] in
  if negb (np_any truth_bool movement_mask) then Ok empty
  else
    let log := logw_response frame movement_mask params in
    if negb (np_any truth_Q log) then Ok empty
    else
      match skfilters_threshold_isodata log with
      | None => Ok empty      (* except IndexError: a message is printed *)
      | Some t =>
          let intensity_mask := np_map (fun x => Qle_bool x t) log in
          bz <- logw_watershed_stage frame intensity_mask params prev_blobs ;;
          let labels := logw_component_labels intensity_mask (snd bz) in
          Ok (append_region_blobs (fst bz) (shape frame) labels params)
      end.

(** Lines 161-167: one labelled pixel for every detected centre that lies
    in the movement mask. *)
Definition doh_marker_mask (frame : GrayscaleImage) (movement_mask : BinaryMask)
  (markers : list (Z * Z)) : result ByteImage :=
  for_each
    (fun marker_mask im =>
       inside <- np_getitem movement_mask (snd im) ;;
       if negb inside then Ok marker_mask
       else np_setitem marker_mask (snd im) (fst im mod 256))
    (enumerate markers 1) (np_zeros_like frame 0).

(** Lines 171-172: the Laplacian of the smoothed frame. *)
Definition doh_response (frame : GrayscaleImage) (movement_mask : BinaryMask)
  (params : SegmenterParameters) : GrayscaleImage * GrayscaleImage :=
  let gauss := skfilters_gaussian frame (gaussian_sigma params) in
  (gauss, skfilters_laplace gauss movement_mask).

Definition _get_blobs_in_frame_with_steps_doh (frame : GrayscaleImage)
  (movement_mask : BinaryMask) (params : SegmenterParameters)
  : result (Blobs * GrayscaleImage * GrayscaleImage * LabelImage * GrayscaleImage) :=
  if negb (np_any truth_bool movement_mask)
  then Ok ([], np_zeros_like frame 0%Q, np_zeros_like frame 0%Q,
           np_zeros_like frame 0, np_zeros_like frame 0%Q)
  else
    let masked_frame :=
      np_map2 (fun (f : Q) (m : bool) => if m then f else 255%Q) frame movement_mask in
    let yxs := skfeature_blob_doh masked_frame (doh_min_sigma params)
                 (doh_max_sigma params) (doh_num_sigma params) in
    let markers :=
      map (fun yxs => (int_of_float (fst (fst yxs)), int_of_float (snd (fst yxs)))) yxs in
    marker_mask <- doh_marker_mask frame movement_mask markers ;;
    let gl := doh_response frame movement_mask params in
    let log := snd gl in
    t <- of_option IndexError (skfilters_threshold_isodata log) ;;
    let labels := skseg_watershed log marker_mask (np_map (fun x => Qlt_bool x t) log) in
    let blobs := append_region_blobs [] (shape frame) labels params in
    Ok (blobs, fst gl, log, labels, masked_frame).

Definition _get_blobs_doh (frame : GrayscaleImage) (movement_mask : BinaryMask)
  (params : SegmenterParameters) : result Blobs :=
  r <- _get_blobs_in_frame_with_steps_doh frame movement_mask params ;;
  Ok (fst (fst (fst (fst r)))).
End Extractors.

(** ** The incremental segmenter *)

(** Modelled from the spec: [eq_gen_it] of [tracker/common.py] is missing
    from the sources.  The specification has no words for the helper itself,
    only for the flag that [is_finished] computes with it, so it is taken
    for what its name and its one call, on [dict.keys()] and a [range], say:
    the two iterables are walked together, and they are equal when they
    yield the same elements in the same order and end together. *)
Fixpoint eq_gen_it (xs ys : list Z) : bool :=
  match xs, ys with
  | [], [] => true
  | x :: xs', y :: ys' => (x =? y) && eq_gen_it xs' ys'
  | _, _ => false
  end.

(** The class of a segmenter decides its [_get_blobs]. *)
Inductive SegmenterClass : Type := BaseSegmenter | LogWSegmenter | DohSegmenter.

(** What iterating a generator once gives. *)
Inductive outcome (A : Type) : Type :=
| Yield (item : A)
| StopIteration
| Raised (e : exn).
Arguments StopIteration {A}.
Arguments Raised {A} e.

Section Segmenter.
Context {cv : Cv2} {sk : Skimage} {sp : Scipy} {co : Collaborators}.

Definition Video := list ColorImage.

(** The attribute [__video]: never assigned (a decoded segmenter before
    [set_video]), [None], or a video. *)
Inductive VideoSlot : Type :=
| VideoUnset
| VideoNone
| VideoLoaded (v : Video).

Record Segmenter : Type := mk_segmenter {
  cls : SegmenterClass;
  frames_with_blobs : dict Z Blobs;
  video : VideoSlot;
  params : SegmenterParameters;
  video_length : Z;
  video_shape : nat * nat
}.

Definition with_frames (s : Segmenter) (t : dict Z Blobs) : Segmenter :=
  mk_segmenter (cls s) t (video s) (params s) (video_length s) (video_shape s).

(** [cls(video, params)] for a video that is not [None]. *)
Definition Segmenter_init (c : SegmenterClass) (v : Video)
  (p : SegmenterParameters) : result Segmenter :=
  first <- of_option IndexError (nth_error v 0) ;;
  Ok (mk_segmenter c [] (VideoLoaded v) p (Z.of_nat (List.length v)) (color_shape first)).

Definition is_finished (s : Segmenter) : bool :=
  match frames_with_blobs s with
  | [] => false
  | _ => eq_gen_it (dict_keys (frames_with_blobs s)) (range 0 (video_length s))
  end.

Definition reached_last_frame (s : Segmenter) : bool :=
  match py_max (dict_keys (frames_with_blobs s)) with
  | None => false
  | Some m => m =? video_length s - 1
  end.

Definition Segmenter_get_mask (s : Segmenter) (subtractor : Subtractor)
  (frame : GrayscaleImage) : Subtractor * BinaryMask :=
  _get_mask_mog2 subtractor frame (params s).

Definition Segmenter_get_blobs (s : Segmenter) (gray_frame : GrayscaleImage)
  (mask : BinaryMask) (prev_blobs : Blobs) : result Blobs :=
  match cls s with
  | BaseSegmenter => Raise NotImplementedError
  | LogWSegmenter => _get_blobs_logw gray_frame mask (params s) prev_blobs
  | DohSegmenter => _get_blobs_doh gray_frame mask (params s)
  end.

Definition create_subtractor (history : Z) : Subtractor :=
  createBackgroundSubtractorMOG2 false history.

Definition blobs_at (s : Segmenter) (frame_n : Z) : result Blobs :=
  of_option KeyError_not_segmented (dict_get frame_n (frames_with_blobs s)).

Definition set_video (s : Segmenter) (v : Video) : Segmenter :=
  mk_segmenter (cls s) (frames_with_blobs s) (VideoLoaded v) (params s)
               (video_length s) (video_shape s).

(** *** The generators

    The body of a generator function runs when the generator is advanced,
    not when the function is called.  A generator of
    [segment_rolling_from] is therefore either created and not yet
    advanced, suspended at a [yield] of the loop, or finished. *)

(** The local variables of [segment_rolling_from] at a [yield].
    [extract_calls] is not a variable of the code: it records, for every
    frame this generator has computed, the [prev_blobs] that
    [self._get_blobs] received. *)
Record Rolling : Type := mk_rolling {
  pending : list (Z * ColorImage);
  prev_blobs : Blobs;
  subtractor : Subtractor;
  extract_calls : list (Z * Blobs)
}.

Inductive generator : Type :=
| Created_from (from_frame_n : Z) (prev_blobs : option Blobs)
| Created_continue
| Suspended (r : Rolling)
| Finished.

Definition segment_rolling_from (from_frame_n : Z) (prev_blobs : option Blobs)
  : generator :=
  Created_from from_frame_n prev_blobs.

Definition segment_rolling_continue : generator := Created_continue.

Definition loaded_video (s : Segmenter) : result Video :=
  match video s with
  | VideoUnset => Raise AttributeError_video
  | VideoNone => Raise ValueError_no_video
  | VideoLoaded v => Ok v
  end.

(** Lines 252-260: the blobs of the frame before [from_frame_n]. *)
Definition previous_blobs (s : Segmenter) (from_frame_n : Z)
  (prev_blobs : option Blobs) : result Blobs :=
  if from_frame_n =? 0 then Ok []
  else
    match frames_with_blobs s, dict_get (from_frame_n - 1) (frames_with_blobs s) with
    | _ :: _, Some stored => Ok stored
    | _, _ =>
        match prev_blobs with
        | None => Raise (ValueError_prev_blobs (from_frame_n - 1))
        | Some given => Ok given
        end
    end.

(** Lines 261-264: a new subtractor sees the frames before [from_frame_n]. *)
Definition warm_up (s : Segmenter) (v : Video) (from_frame_n : Z)
  : result Subtractor :=
  let n := Z.min (movement_detection_history (params s)) from_frame_n in
  let subtractor := create_subtractor (movement_detection_history (params s)) in
  for_each
    (fun subtractor frame_n =>
       frame <- of_option IndexError (nth_error v (Z.to_nat frame_n)) ;;
       Ok (fst (subtractor_apply subtractor (rgb2gray frame))))
    (range (from_frame_n - n) from_frame_n) subtractor.

(** Lines 248-265: from the first advance up to the loop. *)
Definition rolling_start (s : Segmenter) (from_frame_n : Z)
  (prev_blobs : option Blobs) : result Rolling :=
  v <- loaded_video s ;;
  if (from_frame_n <? 0) || (video_length s <=? from_frame_n)
  then Raise (ValueError_frame from_frame_n)
  else
    prev_blobs <- previous_blobs s from_frame_n prev_blobs ;;
    subtractor <- warm_up s v from_frame_n ;;
    Ok (mk_rolling (enumerate (skipn (Z.to_nat from_frame_n) v) from_frame_n)
                   prev_blobs subtractor []).

(** Lines 265-274: the loop, up to its next [yield]. *)
Definition rolling_next (s : Segmenter) (r : Rolling)
  : Segmenter * generator * outcome (Z * Blobs) :=
  match pending r with
  | [] => (s, Finished, StopIteration)
  | (frame_n, frame) :: rest =>
      match dict_get frame_n (frames_with_blobs s) with
      | Some stored =>
          (s,
           Suspended (mk_rolling rest (prev_blobs r) (subtractor r) (extract_calls r)),
           Yield (frame_n, stored))
      | None =>
          let gray_frame := rgb2gray frame in
          let (subtractor', mask) := Segmenter_get_mask s (subtractor r) gray_frame in
          match Segmenter_get_blobs s gray_frame mask (prev_blobs r) with
          | Raise e => (s, Finished, Raised e)
          | Ok blobs =>
              (with_frames s (dict_set frame_n blobs (frames_with_blobs s)),
               Suspended (mk_rolling rest blobs subtractor'
                            (extract_calls r ++ [(frame_n, prev_blobs r)])),
               Yield (frame_n, blobs))
          end
      end
  end.

Definition start_then_next (s : Segmenter) (from_frame_n : Z)
  (prev_blobs : option Blobs) : Segmenter * generator * outcome (Z * Blobs) :=
  match rolling_start s from_frame_n prev_blobs with
  | Raise e => (s, Finished, Raised e)
  | Ok r => rolling_next s r
  end.

(** [next(g)] on a generator [g] of the segmenter [s]: the segmenter after
    the step, the generator after the step, and what the step gave. *)
Definition next (s : Segmenter) (g : generator)
  : Segmenter * generator * outcome (Z * Blobs) :=
  match g with
  | Created_from from_frame_n prev_blobs => start_then_next s from_frame_n prev_blobs
  | Created_continue =>
      match py_max (dict_keys (frames_with_blobs s)) with
      | None => (s, Finished, Raised ValueError_max_empty)
      | Some last => start_then_next s (last + 1) None
      end
  | Suspended r => rolling_next s r
  | Finished => (s, Finished, StopIteration)
  end.

(** *** Serialization *)

Record Serial : Type := mk_serial {
  ser_frames_with_blobs : dict string (list BlobSerial);
  ser_parameters : dict string Q;
  ser_video_length : Z;
  ser_video_shape : nat * nat
}.

Definition encode (s : Segmenter) : Serial :=
  mk_serial
    (fold_left
       (fun acc fb => dict_set (py_str (fst fb)) (map Blob_encode (snd fb)) acc)
       (dict_items (frames_with_blobs s)) [])
    (dict_of_items (params_items (params s)))
    (video_length s)
    (video_shape s).

Definition decode (c : SegmenterClass) (d : Serial) : result Segmenter :=
  let shape := ser_video_shape d in
  frames <- for_each
              (fun acc fb =>
                 frame <- py_int (fst fb) ;;
                 Ok (dict_set frame (map (fun blob => Blob_decode blob shape) (snd fb)) acc))
              (dict_items (ser_frames_with_blobs d)) [] ;;
  Ok (mk_segmenter c frames VideoUnset
                   (SegmenterParameters_of_dict (ser_parameters d))
                   (ser_video_length d) shape).
End Segmenter.

(** ** Vocabulary of the properties *)




Section Properties.
Context {cv : Cv2} {sk : Skimage} {sp : Scipy} {co : Collaborators}.

(** Two blobs with the same centre and radius, up to [eps]. *)
Definition blob_close (eps : Q) (b1 b2 : Blob) : Prop :=
  (Qabs (fst (center_xy b1) - fst (center_xy b2)) <= eps)%Q /\
  (Qabs (snd (center_xy b1) - snd (center_xy b2)) <= eps)%Q /\
  (Qabs (radius b1 - radius b2) <= eps)%Q.

(** What [Segmenter.encode] and [Segmenter.decode] expect of [Blob] and of
    the parameter containers. *)
Definition Blob_roundtrip (eps : Q) : Prop :=
  forall (b : Blob) (sh : nat * nat),
    blob_close eps (Blob_decode (Blob_encode b) sh) b.

Definition params_roundtrip : Prop :=
  forall p : SegmenterParameters,
    params_items (SegmenterParameters_of_dict (dict_of_items (params_items p)))
    = params_items p.

(** [subtractor.apply] on each frame in turn, the masks dropped. *)
Definition feed (subtractor : Subtractor) (frames : list ColorImage) : Subtractor :=
  fold_left (fun sub f => fst (subtractor_apply sub (rgb2gray f))) frames subtractor.


(** A client of one segmenter: it creates generators and advances them, in
    any order and as far as it likes. *)
Inductive action : Type :=
| Call_from (from_frame_n : Z) (prev_blobs : option Blobs)
| Call_continue
| Advance (i : nat).

(** The segmenter, the generators created so far, and the frame indices
    they have yielded. *)
Record session : Type := mk_session {
  seg : Segmenter;
  gens : list generator;
  visited : list Z
}.

Definition act (w : session) (a : action) : session :=
  match a with
  | Call_from from_frame_n prev_blobs =>
      mk_session (seg w) (gens w ++ [segment_rolling_from from_frame_n prev_blobs])
                 (visited w)
  | Call_continue =>
      mk_session (seg w) (gens w ++ [segment_rolling_continue]) (visited w)
  | Advance i =>
      match nth_error (gens w) i with
      | None => w
      | Some g =>
          let '(s', g', out) := next (seg w) g in
          mk_session s' (list_set (gens w) i g')
                     match out with
                     | Yield item => visited w ++ [fst item]
                     | _ => visited w
                     end
      end
  end.

Definition run (w : session) (actions : list action) : session :=
  fold_left act actions w.

Definition new_session (s : Segmenter) : session := mk_session s [] [].

Definition table_keys (w : session) : list Z :=
  dict_keys (frames_with_blobs (seg w)).

(** How a session relates to a later one. *)
Record grows (w w' : session) : Prop := mk_grows {
  entries_kept : forall k blobs,
    dict_get k (frames_with_blobs (seg w)) = Some blobs ->
    dict_get k (frames_with_blobs (seg w')) = Some blobs;
  keys_kept : forall k, In k (table_keys w) -> In k (table_keys w');
  visited_kept : forall k, In k (visited w) -> In k (visited w');
  keys_visited : forall k, In k (table_keys w') -> In k (table_keys w) \/ In k (visited w');
  visited_keys : forall k, In k (visited w') -> In k (visited w) \/ In k (table_keys w')
}.

(** Every extraction that a generator has made for a frame received the
    list that the table holds for the frame before it. *)
Definition fed_previous_frame (s : Segmenter) (r : Rolling) : Prop :=
  forall k prev,
    In (k, prev) (extract_calls r) ->
    dict_get (k - 1) (frames_with_blobs s) = Some prev.

(** A step either leaves the table alone, and then what it yields is an
    entry of the table; or it yields a frame that had no entry and puts
    that entry last. *)
Definition step_effect (s s' : Segmenter) (out : outcome (Z * Blobs)) : Prop :=
  (s' = s /\
   forall item, out = Yield item ->
                dict_get (fst item) (frames_with_blobs s) = Some (snd item)) \/
  (exists k blobs,
      dict_get k (frames_with_blobs s) = None /\
      s' = with_frames s (frames_with_blobs s ++ [(k, blobs)]) /\
      out = Yield (k, blobs)).
End Properties.

(** ** A small closed world

    Simple implementations of the external libraries and of the
    collaborators, on which the model runs: a subtractor that remembers the
    frames it has seen and reports every non-zero pixel as foreground,
    morphology with a one-pixel kernel, one contour per non-empty mask, one
    connected component per mask, and blobs that keep their pixel count. *)
Module World.

Definition count_pixels {A} (truth : A -> bool) (a : ndarray A) : Q :=
  inject_Z (Z.of_nat (np_count_nonzero truth a)).

Definition cv : Cv2 := {|
  Subtractor := list GrayscaleImage;
  Contour := ByteImage;
  createBackgroundSubtractorMOG2 := fun _ _ => [];
  subtractor_apply := fun sub f =>
    (sub ++ [f], np_map (fun q => if truth_Q q then 255 else 0) f);
  cv_threshold_binary := fun img t m =>
    np_map (fun x => if Qlt_bool t x then m else 0%Q) img;
  cv_subtract := fun a b => np_map2 (fun x y => Z.max 0 (x - Qfloor y)) a b;
  cv_morphologyEx := fun img _ _ => img;
  cv_dilate := fun img _ => img;
  cv_getStructuringElement_ellipse := fun _ => mk_ndarray (1%nat, 1%nat) [1];
  cv_findContours_external := fun m => if np_any truth_Z m then [m] else [];
  cv_contourArea := count_pixels truth_Z;
  cv_approxPolyDP := fun c _ _ => c;
  cv_fillPoly := fun img cs v =>
    fold_left (fun acc c => np_map2 (fun x y => if truth_Z y then v else x) acc c) cs img;
  cv_GaussianBlur := fun f _ _ => f;
  cv_filter2D_32F := fun img _ => np_map inject_Z img
|}.

Definition minimum (l : list Q) : option Q :=
  match l with
  | [] => None
  | x :: l' => Some (fold_left (fun a b => if Qle_bool a b then a else b) l' x)
  end.

(** The threshold is the darkest value; an image of one value has none. *)
Definition threshold (img : GrayscaleImage) : option Q :=
  match data img with
  | [] => None
  | x :: l' => if forallb (Qeq_bool x) l' then None else minimum (data img)
  end.

Definition regionprops (labels : LabelImage) : list RegionProperties :=
  flat_map
    (fun l =>
       let n := count_occ Z.eq_dec (data labels) l in
       if (0 <? n)%nat then [mk_region (inject_Z (Z.of_nat n)) l] else [])
    (range 1 (fold_right Z.max 0 (data labels) + 1)).

Definition sk : Skimage := {|
  skmorph_disk := fun _ => mk_ndarray (1%nat, 1%nat) [1];
  img_as_uint := np_map Qfloor;
  skfilters_threshold_isodata := threshold;
  skfilters_gaussian := fun f _ => f;
  skfilters_laplace := fun f m => np_map2 (fun (x : Q) (b : bool) => if b then x else 0%Q) f m;
  skdraw_disk := fun c _ _ => [(Qfloor (fst c), Qfloor (snd c))];
  skseg_watershed := fun _ markers m =>
    np_map2 (fun (l : Z) (b : bool) => if b then l else 0) markers m;
  skmeasure_label := fun m =>
    (np_map (fun b : bool => if b then 1 else 0) m, if np_any truth_bool m then 1 else 0);
  skmeasure_regionprops := regionprops;
  skfeature_blob_doh := fun _ _ _ _ => []
|}.

Definition sp : Scipy := {|
  query_ball_point := fun points x r =>
    map fst
      (filter
         (fun ip =>
            Qle_bool ((fst (snd ip) - fst x) * (fst (snd ip) - fst x)
                      + (snd (snd ip) - snd x) * (snd (snd ip) - snd x)) (r * r))
         (enumerate_nat points))
|}.

Record blob : Type := mk_blob {
  blob_center : Q * Q;
  blob_radius : Q;
  blob_imshape : nat * nat
}.

Definition lookup (name : string) (d : dict string Q) : Q :=
  match dict_get name d with
  | Some q => q
  | None => 0%Q
  end.

Definition co : Collaborators := {|
  ColorImage := GrayscaleImage;
  rgb2gray := fun f => f;
  color_shape := fun f => shape f;
  Blob := blob;
  BlobSerial := (Q * Q) * Q;
  Blob_new := fun sh m _ => mk_blob (0%Q, 0%Q) (count_pixels truth_bool m) sh;
  center_xy := blob_center;
  radius := blob_radius;
  Blob_encode := fun b => (blob_center b, blob_radius b);
  Blob_decode := fun d sh => mk_blob (fst d) (snd d) sh;
  params_items := fun p =>
    [("movement_detection_threshold", movement_detection_threshold p);
     ("discard_percentage", discard_percentage p);
     ("minimum_ant_radius", minimum_ant_radius p);
     ("movement_detection_history", inject_Z (movement_detection_history p));
     ("approx_tolerance", approx_tolerance p);
     ("gaussian_sigma", gaussian_sigma p);
     ("doh_min_sigma", doh_min_sigma p);
     ("doh_max_sigma", doh_max_sigma p);
     ("doh_num_sigma", inject_Z (doh_num_sigma p))]%string;
  SegmenterParameters_of_dict := fun d =>
    mk_params (lookup "movement_detection_threshold" d)
              (lookup "discard_percentage" d)
              (lookup "minimum_ant_radius" d)
              (Qfloor (lookup "movement_detection_history" d))
              (lookup "approx_tolerance" d)
              (lookup "gaussian_sigma" d)
              (lookup "doh_min_sigma" d)
              (lookup "doh_max_sigma" d)
              (Qfloor (lookup "doh_num_sigma" d))
|}.

Definition the_params : SegmenterParameters :=
  mk_params 10 (6 # 10) (1 # 2) 2 1 1 1 2 3.

Definition image (a b c d : Q) : GrayscaleImage :=
  mk_ndarray (2%nat, 2%nat) [a; b; c; d].

Definition frame0 : GrayscaleImage := image 50 50 0 0.
Definition frame1 : GrayscaleImage := image 0 50 50 0.
Definition frame2 : GrayscaleImage := image 0 0 50 50.

Definition two_frames : list GrayscaleImage := [frame0; frame1].
Definition three_frames : list GrayscaleImage := [frame0; frame1; frame2].

(** [LogWSegmenter(video, params)] on a non-empty video. *)
Definition fresh (v : list GrayscaleImage) : Segmenter (co := co) :=
  mk_segmenter (co := co) LogWSegmenter [] (VideoLoaded (co := co) v) the_params
               (Z.of_nat (List.length v)) (2%nat, 2%nat).

Definition new (v : list GrayscaleImage) : session (cv := cv) (co := co) :=
  new_session (cv := cv) (fresh v).

(** Frame 1 is segmented first, with an empty list for frame 0; frame 0 is
    segmented afterwards. *)
Definition backwards : list (action (co := co)) :=
  [Call_from (co := co) 1 (Some []); Advance (co := co) 0;
   Call_from (co := co) 0 None; Advance (co := co) 1].


(** Frame 0 is segmented, the generator is dropped, and a second one
    starts again at frame 0 and runs through both frames. *)
Definition restart : list (action (co := co)) :=
  [Call_from (co := co) 0 None; Advance (co := co) 0;
   Call_from (co := co) 0 None; Advance (co := co) 1; Advance (co := co) 1].

Definition after_restart : session (cv := cv) (co := co) :=
  run (sk := sk) (sp := sp) (new two_frames) restart.

Definition the_blob : blob := mk_blob (0%Q, 0%Q) 2 (2%nat, 2%nat).
Definition flat_frame : GrayscaleImage := image 7 7 7 7.
Definition everywhere : BinaryMask := mk_ndarray (2%nat, 2%nat) [true; true; true; true].


(** The segmenter after frame 0 alone has been segmented. *)
Definition after_frame0 : Segmenter (co := co) :=
  seg (run (sk := sk) (sp := sp) (new two_frames)
           [Call_from (co := co) 0 None; Advance (co := co) 0]).
End World.

(** ** Further operations of the segmenter *)

(** How a loop over a generator ends. *)
Inductive ending : Type :=
| Exhausted               (* StopIteration: the generator has no more frames *)
| Failed (e : exn)        (* an exception leaves the loop *)
| Interrupted.            (* the caller stops advancing *)

(** What advancing the [frames_with_blobs] property gives: what a generator
    of the segmenter gives, or the RuntimeError of a dictionary that changed
    size while its items were iterated. *)
Inductive property_outcome (A : Type) : Type :=
| Given (out : outcome A)
| RuntimeError_dict_size.
Arguments RuntimeError_dict_size {A}.

Section Iteration.
Context {cv : Cv2} {sk : Skimage} {sp : Scipy} {co : Collaborators}.

(** [for item in g: items.append(item)], the caller giving up after [fuel]
    advances: the segmenter after the loop, the items, how the loop ended. *)
Fixpoint collect (fuel : nat) (s : Segmenter) (g : generator)
  : Segmenter * list (Z * Blobs) * ending :=
  match fuel with
  | O => (s, [], Interrupted)
  | S fuel' =>
      let '(s', g', out) := next s g in
      match out with
      | Yield item =>
          let '(s'', items, e) := collect fuel' s' g' in
          (s'', item :: items, e)
      | StopIteration => (s', [], Exhausted)
      | Raised e => (s', [], Failed e)
      end
  end.

(** *** The property [frames_with_blobs]

    A generator too: on its first advance it looks at [is_finished] and
    then either walks the items of the table, by position and watching the
    size of the dictionary as a dictionary iterator does, or hands over to
    [segment_rolling_from(0)]. *)
Inductive items_generator : Type :=
| Property_created
| Property_items (position size : nat)
| Property_rolling (g : generator)
| Property_finished.

Definition frames_with_blobs_property : items_generator := Property_created.

(** One advance of [yield from self.__frames_with_blobs.items()]. *)
Definition items_next (s : Segmenter) (position size : nat)
  : Segmenter * items_generator * property_outcome (Z * Blobs) :=
  if (List.length (frames_with_blobs s) =? size)%nat
  then
    match nth_error (dict_items (frames_with_blobs s)) position with
    | Some item => (s, Property_items (S position) size, Given (Yield item))
    | None => (s, Property_finished, Given StopIteration)
    end
  else (s, Property_finished, RuntimeError_dict_size).

Definition property_next (s : Segmenter) (g : items_generator)
  : Segmenter * items_generator * property_outcome (Z * Blobs) :=
  match g with
  | Property_created =>
      if is_finished s
      then items_next s 0 (List.length (frames_with_blobs s))
      else
        let '(s', g', out) := next s (segment_rolling_from 0 None) in
        (s', Property_rolling g', Given out)
  | Property_items position size => items_next s position size
  | Property_rolling g =>
      let '(s', g', out) := next s g in
      (s', Property_rolling g', Given out)
  | Property_finished => (s, Property_finished, Given StopIteration)
  end.

(** [for item in segmenter.frames_with_blobs: items.append(item)]; [None]
    for the ending is the RuntimeError. *)
Fixpoint collect_property (fuel : nat) (s : Segmenter) (g : items_generator)
  : Segmenter * list (Z * Blobs) * option ending :=
  match fuel with
  | O => (s, [], Some Interrupted)
  | S fuel' =>
      let '(s', g', out) := property_next s g in
      match out with
      | Given (Yield item) =>
          let '(s'', items, e) := collect_property fuel' s' g' in
          (s'', item :: items, e)
      | Given StopIteration => (s', [], Some Exhausted)
      | Given (Raised e) => (s', [], Some (Failed e))
      | RuntimeError_dict_size => (s', [], None)
      end
  end.

(** *** Vocabulary *)

(** The table holds the frames 0, ..., m - 1, entered in this order. *)
Definition segmented_up_to (m : Z) (s : Segmenter) : Prop :=
  dict_keys (frames_with_blobs s) = range 0 m.

(** Every index of the table is the index of a frame of [v]. *)
Definition keys_within (v : Video) (s : Segmenter) : Prop :=
  forall k, In k (dict_keys (frames_with_blobs s)) ->
            0 <= k < Z.of_nat (List.length v).

(** A suspended generator walks the frames of [v] from some position on,
    each with its index. *)
Definition walks (v : Video) (g : generator) : Prop :=
  match g with
  | Suspended r => exists j : nat, pending r = enumerate (skipn j v) (Z.of_nat j)
  | _ => True
  end.

(** The frames of [v] at the indices [ks], where [v] has them. *)
Definition frames_at (v : Video) (ks : list Z) : list (option ColorImage) :=
  map (fun k => nth_error v (Z.to_nat k)) ks.

(** The subtractor of [r] is a new one that has seen the [n] frames before
    [from_frame_n] and then the frames that [r] has computed, and no other. *)
Definition model_history (v : Video) (history : Z) (r : Rolling) : Prop :=
  exists (from_frame_n : Z) (frames : list ColorImage),
    0 <= from_frame_n /\
    map Some frames
    = frames_at v (range (from_frame_n - Z.min history from_frame_n) from_frame_n
                   ++ map fst (extract_calls r)) /\
    subtractor r = feed (create_subtractor history) frames.

(** A generator of a session on the video [v]: it walks [v], and while it is
    suspended its subtractor has the history above. *)
Definition sound_generator (v : Video) (history : Z) (g : generator) : Prop :=
  walks v g /\
  match g with
  | Suspended r => model_history v history r
  | _ => True
  end.

Definition sound_session (v : Video) (history : Z) (w : session) : Prop :=
  video (seg w) = VideoLoaded v /\
  movement_detection_history (params (seg w)) = history /\
  keys_within v (seg w) /\
  Forall (sound_generator v history) (gens w).

(** No generator of the session is suspended. *)
Definition idle (w : session) : Prop :=
  Forall (fun g => match g with Suspended _ => False | _ => True end) (gens w).
End Iteration.


(** *** The previous blobs, as the first extractor sees them *)

Section Closeness.
Context {cv : Cv2} {sk : Skimage} {sp : Scipy} {co : Collaborators}.

(** Lines 101-102: the points given to the k-d tree, (y, x) of each
    centre. *)
Definition blob_points (prev_blobs : Blobs) : list (Q * Q) :=
  map (fun blob => (snd (center_xy blob), fst (center_xy blob))) prev_blobs.

(** No blob but the last, which is not asked, has a blob other than itself
    within its clear radius. *)
Definition isolated (prev_blobs : Blobs) : Prop :=
  forall (i : nat) (blob : Blob),
    nth_error (removelast prev_blobs) i = Some blob ->
    let found :=
      query_ball_point (blob_points prev_blobs)
                       (snd (center_xy blob), fst (center_xy blob))
                       (maximum_clear_radius (radius blob)) in
    found = [i] \/ found = [].

(** [self._get_blobs] gives the same for both lists, on every frame and
    mask. *)
Definition same_extraction (s : Segmenter) (p1 p2 : Blobs) : Prop :=
  forall (gray_frame : GrayscaleImage) (mask : BinaryMask),
    Segmenter_get_blobs s gray_frame mask p1 = Segmenter_get_blobs s gray_frame mask p2.

End Closeness.

(** ** Further scenes in the small world *)

Module Scenes.
(** [Segmenter(video, params)], the class without an extractor. *)
Definition abstract_segmenter : Segmenter (co := World.co) :=
  mk_segmenter (co := World.co) BaseSegmenter [] (VideoLoaded (co := World.co) World.two_frames)
               World.the_params 2 (2%nat, 2%nat).

(** [DohSegmenter(video, params)]. *)
Definition doh_segmenter : Segmenter (co := World.co) :=
  mk_segmenter (co := World.co) DohSegmenter [] (VideoLoaded (co := World.co) World.two_frames)
               World.the_params 2 (2%nat, 2%nat).



(** Two blobs far from each other. *)
Definition far_apart : list World.blob :=
  [World.mk_blob (0%Q, 0%Q) 1 (2%nat, 2%nat);
   World.mk_blob (100%Q, 100%Q) 1 (2%nat, 2%nat)].

End Scenes.

(** * The session of the tracker GUI

    A shallow embedding of [ant_tracker/tracker_gui/session.py]: the states
    of a video file and their order, and the book-keeping of [SessionInfo]
    ([first_run], [add_new_files], [remove_deleted_files],
    [record_tracker_state], [record_detection] and what [save] does to the
    session before it writes it).

    Conventions.
    - [pathlib], [natsort] and the modules of the repository that
      [session.py] imports ([extracted_parameters], [tracker.common],
      [tracker.track], [tracker.tracking]) are the class [Desk].  Paths are
      compared with [==]; [filehash] is taken to return.
    - A method that changes the session and may raise on the way returns
      the session as the exception leaves it, next to the exception.
    - What [save] does outside the session is a list of calls: the text it
      writes is not modelled, nor is [load], which reads it. *)

Module GuiSession.

Inductive State : Type :=
| New
| GotParameters
| Tracking
| DetectingLeaves
| Finished.

(** [==] on the members of the enumeration. *)
Definition State_eqb (a b : State) : bool :=
  match a, b with
  | New, New | GotParameters, GotParameters | Tracking, Tracking
  | DetectingLeaves, DetectingLeaves | Finished, Finished => true
  | _, _ => false
  end.

(** [State.__indexes()] *)
Definition indexes : list State :=
  [New; GotParameters; Tracking; DetectingLeaves; Finished].

(** [l.index(x)]: the first position of [x]; [None] stands for the
    ValueError of a list without [x]. *)
Fixpoint list_index (x : State) (l : list State) : option nat :=
  match l with
  | [] => None
  | y :: l' => if State_eqb x y then Some O else option_map S (list_index x l')
  end.

Definition State_gt (self other : State) : option bool :=
  match list_index self indexes, list_index other indexes with
  | Some s, Some o => Some (o <? s)%nat
  | _, _ => None
  end.

Definition State_lt (self other : State) : option bool :=
  match list_index self indexes, list_index other indexes with
  | Some s, Some o => Some (s <? o)%nat
  | _, _ => None
  end.

Definition State_le (self other : State) : option bool :=
  option_map negb (State_gt self other).

Definition State_ge (self other : State) : option bool :=
  option_map negb (State_lt self other).

(** What [session.py] takes from elsewhere: paths with [parent], [name] and
    [/]; [natsorted(files, key=str)]; [filehash]; a [Tracker] with its
    [video_path] and its truth value; the extracted parameters. *)
Class Desk : Type := {
  Path : Type;
  Path_EqKey : EqKey Path;
  parent : Path -> Path;
  name : Path -> string;
  joinpath : Path -> string -> Path;
  natsorted : list Path -> list Path;
  Hash : Type;
  Hash_eqb : Hash -> Hash -> bool;
  filehash : Path -> Hash;
  Tracker : Type;
  video_path : Tracker -> Path;
  Tracker_bool : Tracker -> bool;
  ExtractedParameters : Type;
  datetime : Type
}.
#[export] Existing Instance Path_EqKey.

Inductive error {desk : Desk} : Type :=
| ValueError_list_remove            (* list.remove(x): x not in list *)
| ValueError_list_index             (* list.index(x): x not in list *)
| KeyError (file : Path)
| ValueError_not_in_session (file : Path)   (* "El archivo {file} no pertenece a esta sesion" *)
| ValueError_other_tracker (file : Path)    (* "El archivo {file} no corresponde a este Tracker (...)" *)
| ValueError_not_tracking (file : Path) (state : State).
                                    (* "El archivo {file} no esta actualmente en tracking (estado: ...)" *)

(** What [save] does outside the session. *)
Inductive call {desk : Desk} : Type :=
| Save_unfinished (tracker : Tracker) (closed_file ongoing_file : Path)
| Unlink (file : Path)
| Write_text (path : Path).

Section Session.
Context {desk : Desk}.

Record SessionInfo : Type := mk_session_info {
  videofiles : list Path;
  first_start_time : datetime;
  lengths : dict Path (option Z);
  states : dict Path State;
  parameters : dict Path (option ExtractedParameters);
  active_trackers : dict Path (option Tracker);
  unfinished_trackers : dict Path (option (Path * Path));
  detection_probs : dict Path (dict Z Q);
  save_every_n_frames : Z;
  is_first_run : bool
}.

Definition set_videofiles (x : SessionInfo) (l : list Path) : SessionInfo :=
  mk_session_info l (first_start_time x) (lengths x) (states x) (parameters x)
    (active_trackers x) (unfinished_trackers x) (detection_probs x)
    (save_every_n_frames x) (is_first_run x).

Definition set_lengths (x : SessionInfo) (d : dict Path (option Z)) : SessionInfo :=
  mk_session_info (videofiles x) (first_start_time x) d (states x) (parameters x)
    (active_trackers x) (unfinished_trackers x) (detection_probs x)
    (save_every_n_frames x) (is_first_run x).

Definition set_states (x : SessionInfo) (d : dict Path State) : SessionInfo :=
  mk_session_info (videofiles x) (first_start_time x) (lengths x) d (parameters x)
    (active_trackers x) (unfinished_trackers x) (detection_probs x)
    (save_every_n_frames x) (is_first_run x).

Definition set_parameters (x : SessionInfo)
  (d : dict Path (option ExtractedParameters)) : SessionInfo :=
  mk_session_info (videofiles x) (first_start_time x) (lengths x) (states x) d
    (active_trackers x) (unfinished_trackers x) (detection_probs x)
    (save_every_n_frames x) (is_first_run x).

Definition set_active_trackers (x : SessionInfo)
  (d : dict Path (option Tracker)) : SessionInfo :=
  mk_session_info (videofiles x) (first_start_time x) (lengths x) (states x)
    (parameters x) d (unfinished_trackers x) (detection_probs x)
    (save_every_n_frames x) (is_first_run x).

Definition set_unfinished_trackers (x : SessionInfo)
  (d : dict Path (option (Path * Path))) : SessionInfo :=
  mk_session_info (videofiles x) (first_start_time x) (lengths x) (states x)
    (parameters x) (active_trackers x) d (detection_probs x)
    (save_every_n_frames x) (is_first_run x).

Definition set_detection_probs (x : SessionInfo)
  (d : dict Path (dict Z Q)) : SessionInfo :=
  mk_session_info (videofiles x) (first_start_time x) (lengths x) (states x)
    (parameters x) (active_trackers x) (unfinished_trackers x) d
    (save_every_n_frames x) (is_first_run x).

(** [{f: v for f in files}] *)
Definition for_files {V : Type} (files : list Path) (v : V) : dict Path V :=
  dict_of_items (map (fun f => (f, v)) files).

(** [{**d, **new}] *)
Definition dict_merge {V : Type} (d new : dict Path V) : dict Path V :=
  fold_left (fun acc kv => dict_set (fst kv) (snd kv) acc) (dict_items new) d.

(** [x in l] *)
Definition list_contains (x : Path) (l : list Path) : bool :=
  existsb (key_eqb x) l.

(** [l.remove(x)]: without the first occurrence of [x]; [None] stands for
    the ValueError of a list without [x]. *)
Fixpoint list_remove_first (x : Path) (l : list Path) : option (list Path) :=
  match l with
  | [] => None
  | y :: l' =>
      if key_eqb x y then Some l'
      else option_map (cons y) (list_remove_first x l')
  end.

(** [del d[k]]: [None] stands for the KeyError of a dictionary without
    [k]. *)
Fixpoint dict_del {V : Type} (k : Path) (d : dict Path V) : option (dict Path V) :=
  match d with
  | [] => None
  | (k', v) :: d' =>
      if key_eqb k k' then Some d'
      else option_map (cons (k', v)) (dict_del k d')
  end.

Definition first_run (files : list Path) (first_start_time : datetime) : SessionInfo :=
  mk_session_info (natsorted files) first_start_time
    (for_files files None) (for_files files New) (for_files files None)
    (for_files files None) (for_files files None) (for_files files [])
    1000 true.

Definition add_new_files (x : SessionInfo) (files : list Path) : SessionInfo :=
  mk_session_info (natsorted (videofiles x ++ files)) (first_start_time x)
    (dict_merge (lengths x) (for_files files None))
    (dict_merge (states x) (for_files files New))
    (dict_merge (parameters x) (for_files files None))
    (dict_merge (active_trackers x) (for_files files None))
    (dict_merge (unfinished_trackers x) (for_files files None))
    (dict_merge (detection_probs x) (for_files files []))
    (save_every_n_frames x) (is_first_run x).

(** The body of the loop of [remove_deleted_files], statement by
    statement. *)
Definition remove_file (x : SessionInfo) (file : Path) : SessionInfo * option error :=
  match list_remove_first file (videofiles x) with
  | None => (x, Some ValueError_list_remove)
  | Some l =>
  let x := set_videofiles x l in
  match dict_del file (lengths x) with
  | None => (x, Some (KeyError file))
  | Some d =>
  let x := set_lengths x d in
  match dict_del file (states x) with
  | None => (x, Some (KeyError file))
  | Some d =>
  let x := set_states x d in
  match dict_del file (parameters x) with
  | None => (x, Some (KeyError file))
  | Some d =>
  let x := set_parameters x d in
  match dict_del file (active_trackers x) with
  | None => (x, Some (KeyError file))
  | Some d =>
  let x := set_active_trackers x d in
  match dict_del file (unfinished_trackers x) with
  | None => (x, Some (KeyError file))
  | Some d =>
  let x := set_unfinished_trackers x d in
  match dict_del file (detection_probs x) with
  | None => (x, Some (KeyError file))
  | Some d => (set_detection_probs x d, None)
  end end end end end end end.

Fixpoint remove_files (x : SessionInfo) (files : list Path)
  : SessionInfo * option error :=
  match files with
  | [] => (x, None)
  | file :: files' =>
      match remove_file x file with
      | (x', None) => remove_files x' files'
      | raised => raised
      end
  end.

Definition remove_deleted_files (x : SessionInfo) (files : list Path)
  : SessionInfo * option error :=
  match remove_files x files with
  | (x', None) => (set_videofiles x' (natsorted (videofiles x')), None)
  | raised => raised
  end.

(** [record_tracker_state] changes nothing before it raises: the session
    afterwards, or the exception. *)
Definition record_tracker_state (x : SessionInfo) (file : Path) (tracker : Tracker)
  : SessionInfo + error :=
  if negb (list_contains file (videofiles x))
  then inr (ValueError_not_in_session file)
  else if negb (Hash_eqb (filehash (video_path tracker)) (filehash file))
  then inr (ValueError_other_tracker file)
  else
    match dict_get file (states x) with
    | None => inr (KeyError file)
    | Some state =>
        if negb (State_eqb state Tracking)
        then inr (ValueError_not_tracking file state)
        else inl (set_active_trackers x
                    (dict_set file (Some tracker) (active_trackers x)))
    end.

(** [record_detection(file, track, prob)], with [track.id] for the track. *)
Definition record_detection (x : SessionInfo) (file : Path) (track_id : Z) (prob : Q)
  : SessionInfo + error :=
  match dict_get file (detection_probs x) with
  | None => inr (KeyError file)
  | Some probs =>
      inl (set_detection_probs x
             (dict_set file (dict_set track_id prob probs) (detection_probs x)))
  end.

(** [path.parent / f".{vname}.uctrk"] and [path.parent / f".{vname}.uotrk"]
    for the video of a tracker. *)
Definition closed_file_of (path : Path) (tracker : Tracker) : Path :=
  joinpath (parent path) ("." ++ name (video_path tracker) ++ ".uctrk")%string.

Definition ongoing_file_of (path : Path) (tracker : Tracker) : Path :=
  joinpath (parent path) ("." ++ name (video_path tracker) ++ ".uotrk")%string.

(** The tracker of [self.active_trackers[file]] when that entry is true:
    it is not [None] and the tracker itself is true. *)
Definition true_tracker (t : option Tracker) : option Tracker :=
  match t with
  | Some tracker => if Tracker_bool tracker then Some tracker else None
  | None => None
  end.

(** A session with the calls made so far, and the exception that has left
    the method, if one has. *)
Definition saving : Type := SessionInfo * list call * option error.

(** The first [if] of the loop of [save]. *)
Definition save_tracking (path : Path) (x : SessionInfo) (file : Path) : saving :=
  match dict_get file (states x) with
  | None => (x, [], Some (KeyError file))
  | Some state =>
      if State_eqb state Tracking then
        match dict_get file (active_trackers x) with
        | None => (x, [], Some (KeyError file))
        | Some t =>
            match true_tracker t with
            | Some tracker =>
                let closed_file := closed_file_of path tracker in
                let ongoing_file := ongoing_file_of path tracker in
                (set_unfinished_trackers x
                   (dict_set file (Some (closed_file, ongoing_file))
                             (unfinished_trackers x)),
                 [Save_unfinished tracker closed_file ongoing_file], None)
            | None => (x, [], None)
            end
        end
      else (x, [], None)
  end.

(** The second [if]. *)
Definition save_past_tracking (path : Path) (x : SessionInfo) (file : Path) : saving :=
  match dict_get file (states x) with
  | None => (x, [], Some (KeyError file))
  | Some state =>
      match State_gt state Tracking with
      | None => (x, [], Some ValueError_list_index)
      | Some true =>
          match dict_get file (active_trackers x) with
          | None => (x, [], Some (KeyError file))
          | Some t =>
              match true_tracker t with
              | Some tracker =>
                  let x := set_active_trackers x
                             (dict_set file None (active_trackers x)) in
                  (set_unfinished_trackers x
                     (dict_set file None (unfinished_trackers x)),
                   [Unlink (closed_file_of path tracker);
                    Unlink (ongoing_file_of path tracker)], None)
              | None => (x, [], None)
              end
          end
      | Some false => (x, [], None)
      end
  end.

(** The third [if]. *)
Definition save_detections (x : SessionInfo) (file : Path) : saving :=
  match dict_get file (states x) with
  | None => (x, [], Some (KeyError file))
  | Some state =>
      if negb (State_eqb state DetectingLeaves) then
        match dict_get file (detection_probs x) with
        | None => (x, [], Some (KeyError file))
        | Some probs =>
            match probs with
            | [] => (x, [], None)
            | _ :: _ =>
                (set_detection_probs x (dict_set file [] (detection_probs x)), [], None)
            end
        end
      else (x, [], None)
  end.

(** One statement after another, up to the first that raises. *)
Definition and_then (r : saving) (k : SessionInfo -> saving) : saving :=
  match r with
  | (x, calls, None) => let '(x', calls', e) := k x in (x', calls ++ calls', e)
  | raised => raised
  end.

Definition save_file (path : Path) (x : SessionInfo) (file : Path) : saving :=
  and_then (save_tracking path x file) (fun x =>
  and_then (save_past_tracking path x file) (fun x =>
  save_detections x file)).

Fixpoint save_files (path : Path) (x : SessionInfo) (files : list Path) : saving :=
  match files with
  | [] => (x, [], None)
  | file :: files' =>
      and_then (save_file path x file) (fun x => save_files path x files')
  end.

Definition save (x : SessionInfo) (path : Path) : saving :=
  and_then (save_files path x (videofiles x)) (fun x => (x, [Write_text path], None)).

(** *** Vocabulary *)

(** Every dictionary of the session has an entry for [file]; none has. *)
Definition has_entries (x : SessionInfo) (file : Path) : Prop :=
  In file (dict_keys (lengths x)) /\ In file (dict_keys (states x)) /\
  In file (dict_keys (parameters x)) /\ In file (dict_keys (active_trackers x)) /\
  In file (dict_keys (unfinished_trackers x)) /\ In file (dict_keys (detection_probs x)).

Definition no_entries (x : SessionInfo) (file : Path) : Prop :=
  ~ In file (dict_keys (lengths x)) /\ ~ In file (dict_keys (states x)) /\
  ~ In file (dict_keys (parameters x)) /\ ~ In file (dict_keys (active_trackers x)) /\
  ~ In file (dict_keys (unfinished_trackers x)) /\
  ~ In file (dict_keys (detection_probs x)).

(** The dictionaries are dictionaries: no key twice. *)
Definition dicts_wf (x : SessionInfo) : Prop :=
  dict_wf (lengths x) /\ dict_wf (states x) /\ dict_wf (parameters x) /\
  dict_wf (active_trackers x) /\ dict_wf (unfinished_trackers x) /\
  dict_wf (detection_probs x).

(** The list and the dictionaries are in step: every file is listed once,
    and the dictionaries have entries for the listed files and for no
    other. *)
Definition in_step (x : SessionInfo) : Prop :=
  NoDup (videofiles x) /\ dicts_wf x /\
  forall file,
    (In file (videofiles x) -> has_entries x file) /\
    (~ In file (videofiles x) -> no_entries x file).

(** [save] has nothing left to do for [file]: a tracker that is true has
    its two files recorded while the file is in tracking, and there is none
    once the file is past tracking; detections are kept only while leaves
    are detected. *)
Definition settled_at (path : Path) (x : SessionInfo) (file : Path) : Prop :=
  forall state,
    dict_get file (states x) = Some state ->
    (forall t tracker,
        dict_get file (active_trackers x) = Some t ->
        true_tracker t = Some tracker ->
        State_gt state Tracking <> Some true /\
        (state = Tracking ->
         dict_get file (unfinished_trackers x)
         = Some (Some (closed_file_of path tracker, ongoing_file_of path tracker)))) /\
    (state <> DetectingLeaves -> dict_get file (detection_probs x) = Some []).
End Session.
End GuiSession.

(** ** A small office

    Paths are strings, [natsorted] is an insertion sort by the order of
    strings, the hash of a file is its path, and a tracker is the path of
    its video with its truth value. *)

Module Office.
Fixpoint insert (f : string) (l : list string) : list string :=
  match l with
  | [] => [f]
  | g :: l' => if String.leb f g then f :: l else g :: insert f l'
  end.

Definition sort (l : list string) : list string := fold_right insert [] l.

Definition desk : GuiSession.Desk := {|
  GuiSession.Path := string;
  GuiSession.Path_EqKey := EqKey_string;
  GuiSession.parent := fun _ => "videos"%string;
  GuiSession.name := fun p => p;
  GuiSession.joinpath := fun d n => (d ++ "/" ++ n)%string;
  GuiSession.natsorted := sort;
  GuiSession.Hash := string;
  GuiSession.Hash_eqb := String.eqb;
  GuiSession.filehash := fun p => p;
  GuiSession.Tracker := (string * bool)%type;
  GuiSession.video_path := fst;
  GuiSession.Tracker_bool := snd;
  GuiSession.ExtractedParameters := unit;
  GuiSession.datetime := Z
|}.

(** A first run on two videos. *)
Definition opened : GuiSession.SessionInfo (desk := desk) :=
  GuiSession.first_run (desk := desk) ["b.mp4"; "a.mp4"]%string 0.
End Office.
(** * Properties *)

(** ** Built-ins and dictionaries *)

Lemma bind_ok {A B} (r : result A) (k : A -> result B) (b : B) :
  bind r k = Ok b -> exists a, r = Ok a /\ k a = Ok b.
Proof.
  destruct r as [a | e]; simpl; intros E; [exists a; auto | discriminate].
Qed.

Lemma In_range (a b k : Z) : In k (range a b) <-> a <= k < b.
Proof.
  unfold range. rewrite in_map_iff. split.
  - intros (i & <- & Hi). apply in_seq in Hi. lia.
  - intros Hk. exists (Z.to_nat (k - a)). split; [lia |].
    apply in_seq. lia.
Qed.

Lemma length_range (a b : Z) : List.length (range a b) = Z.to_nat (b - a).
Proof. unfold range. now rewrite length_map, length_seq. Qed.

Lemma range_empty (a b : Z) : b <= a -> range a b = [].
Proof.
  intros Hle. unfold range.
  replace (Z.to_nat (b - a)) with 0%nat by lia. reflexivity.
Qed.

Lemma eq_gen_it_spec (xs ys : list Z) : eq_gen_it xs ys = true <-> xs = ys.
Proof.
  revert ys. induction xs as [| x xs IH]; intros [| y ys]; simpl;
    try (split; [discriminate | congruence]); [tauto |].
  rewrite andb_true_iff, Z.eqb_eq, IH. split.
  - intros [-> ->]. reflexivity.
  - intros [= -> ->]. auto.
Qed.

Lemma py_int_str (n : Z) : py_int (py_str n) = Ok n.
Proof.
  unfold py_int, py_str.
  rewrite NilZero.isi.
  - now rewrite DecimalZ.of_to.
  - destruct n as [| p | p]; simpl; try discriminate.
    intros [= E]. revert E. apply DecimalPos.Unsigned.to_uint_nonnil.
  - destruct n as [| p | p]; simpl; try discriminate.
    intros [= E]. revert E. apply DecimalPos.Unsigned.to_uint_nonnil.
Qed.

Lemma py_str_inj (m n : Z) : py_str m = py_str n -> m = n.
Proof.
  intros E. apply (f_equal py_int) in E.
  rewrite !py_int_str in E. congruence.
Qed.

Section DictFacts.
Context {K V : Type} `{EqKey K}.
Implicit Types (d : dict K V) (k : K) (v : V).

Lemma key_eqb_refl k : key_eqb k k = true.
Proof. destruct (key_eqb_spec k k); congruence. Qed.

Lemma key_eqb_neq k k' : k <> k' -> key_eqb k k' = false.
Proof. destruct (key_eqb_spec k k'); congruence. Qed.

Lemma dict_get_None k d : dict_get k d = None <-> ~ In k (dict_keys d).
Proof.
  induction d as [| [k' v'] d IH]; simpl; [tauto |].
  destruct (key_eqb_spec k k') as [-> | Hne].
  - split; [discriminate | intros Hn; exfalso; auto].
  - rewrite IH. split; [intros Hn [E | Hin]; congruence | tauto].
Qed.

Lemma dict_get_Some_In k v d : dict_get k d = Some v -> In k (dict_keys d).
Proof.
  intros E. destruct (dict_get k d) eqn:G in E; [| discriminate].
  assert (Hn : dict_get k d <> None) by congruence.
  rewrite dict_get_None in Hn.
  destruct (in_dec (fun a b => reflect_dec _ _ (key_eqb_spec a b)) k (dict_keys d)); tauto.
Qed.

Lemma dict_contains_In k d : dict_contains k d = true <-> In k (dict_keys d).
Proof.
  unfold dict_contains. destruct (dict_get k d) eqn:G.
  - split; [intros _; eapply dict_get_Some_In; eauto | reflexivity].
  - apply dict_get_None in G. split; [discriminate | tauto].
Qed.

Lemma dict_set_absent k v d : dict_get k d = None -> dict_set k v d = d ++ [(k, v)].
Proof.
  induction d as [| [k' v'] d IH]; simpl; [reflexivity |].
  destruct (key_eqb k k'); [discriminate |].
  intros G. now rewrite IH.
Qed.

Lemma dict_get_app_absent k k' v d :
  k <> k' -> dict_get k (d ++ [(k', v)]) = dict_get k d.
Proof.
  intros Hne. induction d as [| [k0 v0] d IH]; simpl.
  - now rewrite key_eqb_neq.
  - now rewrite IH.
Qed.

Lemma dict_get_app_Some k k' v v' d :
  dict_get k d = Some v -> dict_get k (d ++ [(k', v')]) = Some v.
Proof.
  induction d as [| [k0 v0] d IH]; simpl; [discriminate |].
  destruct (key_eqb k k0); auto.
Qed.

Lemma dict_get_app_new k v d :
  dict_get k d = None -> dict_get k (d ++ [(k, v)]) = Some v.
Proof.
  induction d as [| [k0 v0] d IH]; simpl.
  - now rewrite key_eqb_refl.
  - destruct (key_eqb k k0); [discriminate | auto].
Qed.

Lemma dict_keys_app d d' : dict_keys (d ++ d') = dict_keys d ++ dict_keys d'.
Proof. apply map_app. Qed.
End DictFacts.

(** ** The completeness flag *)

Section Completeness.
Context {cv : Cv2} {sk : Skimage} {sp : Scipy} {co : Collaborators}.

Lemma is_finished_keys (s : Segmenter) :
  is_finished s = true <->
  frames_with_blobs s <> [] /\
  dict_keys (frames_with_blobs s) = range 0 (video_length s).
Proof.
  unfold is_finished. destruct (frames_with_blobs s) as [| kv t] eqn:E.
  - split; [discriminate | intros [Hne _]; congruence].
  - rewrite eq_gen_it_spec. split; [intros Hk; split; [discriminate | exact Hk] | tauto].
Qed.

End Completeness.



(** ** What the extractors can raise *)

Section Raising.
Context {cv : Cv2} {sk : Skimage} {sp : Scipy} {co : Collaborators}.

Lemma for_each_raises {A S} (P : exn -> Prop) (body : S -> A -> result S) :
  (forall acc x e, body acc x = Raise e -> P e) ->
  forall xs acc e, for_each body xs acc = Raise e -> P e.
Proof.
  intros Hbody. induction xs as [| x xs IH]; simpl; intros acc e E; [discriminate |].
  destruct (body acc x) as [acc' |] eqn:B; simpl in E.
  - eauto.
  - injection E as <-. eauto.
Qed.

Lemma np_getitem_raises {A} (a : ndarray A) rc e :
  np_getitem a rc = Raise e -> e = IndexError.
Proof.
  unfold np_getitem.
  destruct (normalize_index (fst rc) (fst (shape a))),
    (normalize_index (snd rc) (snd (shape a))); try congruence.
  destruct (nth_error _ _); simpl; congruence.
Qed.

Lemma np_setitem_raises {A} (a : ndarray A) rc v e :
  np_setitem a rc v = Raise e -> e = IndexError.
Proof.
  unfold np_setitem.
  destruct (normalize_index (fst rc) (fst (shape a))),
    (normalize_index (snd rc) (snd (shape a))); congruence.
Qed.

Lemma doh_marker_mask_raises frame movement_mask markers e :
  doh_marker_mask frame movement_mask markers = Raise e -> e = IndexError.
Proof.
  unfold doh_marker_mask.
  apply (for_each_raises (fun e => e = IndexError)).
  intros acc x e'.
  destruct (np_getitem movement_mask (snd x)) as [inside |] eqn:G; simpl.
  - destruct inside; simpl; [apply np_setitem_raises | discriminate].
  - intros [= <-]. eapply np_getitem_raises; eauto.
Qed.

Lemma doh_raises_IndexError frame movement_mask params e :
  _get_blobs_doh frame movement_mask params = Raise e -> e = IndexError.
Proof.
  unfold _get_blobs_doh, _get_blobs_in_frame_with_steps_doh.
  destruct (negb (np_any truth_bool movement_mask)); simpl; [discriminate |].
  destruct (doh_marker_mask _ _ _) as [mm |] eqn:M; simpl.
  - destruct (skfilters_threshold_isodata _); simpl; congruence.
  - intros [= <-]. eapply doh_marker_mask_raises; eauto.
Qed.

(** Without blobs in the previous frame the first extractor raises
    nothing. *)
Lemma logw_without_prev_blobs frame movement_mask params :
  exists blobs, _get_blobs_logw frame movement_mask params [] = Ok blobs.
Proof.
  unfold _get_blobs_logw.
  destruct (negb (np_any truth_bool movement_mask)); [eauto |].
  destruct (negb (np_any truth_Q _)); [eauto |].
  destruct (skfilters_threshold_isodata _); simpl; eauto.
Qed.
End Raising.

(** ** Starting a generator *)

Section Starting.
Context {cv : Cv2} {sk : Skimage} {sp : Scipy} {co : Collaborators}.

Lemma previous_blobs_missing (s : Segmenter) (from_frame_n : Z) :
  from_frame_n <> 0 ->
  dict_contains (from_frame_n - 1) (frames_with_blobs s) = false ->
  previous_blobs s from_frame_n None = Raise (ValueError_prev_blobs (from_frame_n - 1)).
Proof.
  intros Hne Hc. unfold previous_blobs, dict_contains in *.
  destruct (Z.eqb_spec from_frame_n 0) as [| _]; [contradiction |].
  destruct (dict_get _ _); [discriminate |].
  destruct (frames_with_blobs s); reflexivity.
Qed.

(** C1.  Advancing [segment_rolling_from(from_frame)] without [prev_blobs],
    for 0 < from_frame < video_length and no entry for from_frame - 1,
    raises: nothing is yielded, the generator is finished and the segmenter
    is as before.  With a video loaded the exception is the ValueError that
    asks for the blobs of frame from_frame - 1.  In particular this is what
    [segment_rolling_from(2)] gives on a segmenter just constructed on a
    video of more than two frames. *)
Theorem missing_history_raises :
  (forall (s : Segmenter) (from_frame_n : Z),
      0 < from_frame_n < video_length s ->
      dict_contains (from_frame_n - 1) (frames_with_blobs s) = false ->
      exists e,
        next s (segment_rolling_from from_frame_n None) = (s, Finished, Raised e) /\
        (forall v, video s = VideoLoaded v ->
                   e = ValueError_prev_blobs (from_frame_n - 1))) /\
  (forall c v p s,
      Segmenter_init c v p = Ok s ->
      (2 < List.length v)%nat ->
      next s (segment_rolling_from 2 None)
      = (s, Finished, Raised (ValueError_prev_blobs 1))).
Proof.
  assert (General : forall (s : Segmenter) (from_frame_n : Z),
      0 < from_frame_n < video_length s ->
      dict_contains (from_frame_n - 1) (frames_with_blobs s) = false ->
      exists e,
        next s (segment_rolling_from from_frame_n None) = (s, Finished, Raised e) /\
        (forall v, video s = VideoLoaded v ->
                   e = ValueError_prev_blobs (from_frame_n - 1))).
  { intros s from_frame_n Hrange Hmissing.
    unfold next, segment_rolling_from, start_then_next, rolling_start, loaded_video.
    destruct (video s) as [| | v] eqn:Hv; simpl.
    - eexists; split; [reflexivity | discriminate].
    - eexists; split; [reflexivity | discriminate].
    - replace ((from_frame_n <? 0) || (video_length s <=? from_frame_n)) with false
        by (symmetry; apply orb_false_iff; split; lia).
      rewrite previous_blobs_missing by (auto; lia). simpl.
      eexists; split; [reflexivity | reflexivity]. }
  split; [exact General |].
  intros c v p s Hinit Hlen.
  unfold Segmenter_init in Hinit.
  destruct (nth_error v 0) as [first |]; simpl in Hinit; [| discriminate].
  injection Hinit as <-.
  match goal with |- next ?s0 _ = _ => destruct (General s0 2) as (e & -> & He) end.
  - simpl. lia.
  - reflexivity.
  - now rewrite (He v eq_refl).
Qed.

(** [segment_rolling_from(0)] on an empty table never raises the
    ValueError of [max]. *)
Lemma from_zero_not_max_error (s : Segmenter) :
  frames_with_blobs s = [] ->
  snd (next s (segment_rolling_from 0 None)) <> Raised ValueError_max_empty.
Proof.
  intros Hempty.
  unfold next, segment_rolling_from, start_then_next, rolling_start, loaded_video.
  destruct (video s) as [| | v]; simpl; try discriminate.
  destruct (video_length s <=? 0); simpl; [discriminate |].
  unfold warm_up. rewrite range_empty by lia. simpl.
  unfold rolling_next. simpl.
  destruct v as [| frame v']; simpl; [discriminate |].
  rewrite Hempty. simpl.
  destruct (Segmenter_get_mask s _ _) as [subtractor' mask].
  unfold Segmenter_get_blobs.
  destruct (cls s).
  - simpl. discriminate.
  - destruct (logw_without_prev_blobs (rgb2gray frame) mask (params s)) as [blobs ->].
    simpl. discriminate.
  - destruct (_get_blobs_doh _ _ _) as [blobs | e] eqn:D; simpl; [discriminate |].
    apply doh_raises_IndexError in D. subst e. discriminate.
Qed.

(** C10.  On an empty table, advancing [segment_rolling_continue()] raises
    the ValueError of [max] on an empty collection: nothing is yielded,
    the generator is finished, the segmenter is as before.  This is not
    what advancing [segment_rolling_from(0)] gives. *)
Theorem continue_on_empty_table_raises (s : Segmenter) :
  frames_with_blobs s = [] ->
  next s segment_rolling_continue = (s, Finished, Raised ValueError_max_empty) /\
  next s segment_rolling_continue <> next s (segment_rolling_from 0 None).
Proof.
  intros Hempty.
  assert (E : next s segment_rolling_continue = (s, Finished, Raised ValueError_max_empty)).
  { unfold next, segment_rolling_continue. now rewrite Hempty. }
  split; [exact E |].
  rewrite E. intros Heq.
  apply (from_zero_not_max_error s Hempty). now rewrite <- Heq.
Qed.
End Starting.

(** C1 on [LogWSegmenter(video, params)] with three frames and
    [segment_rolling_from(2)]. *)
Lemma missing_history_raises_witness :
  Segmenter_init (co := World.co) LogWSegmenter World.three_frames World.the_params
  = Ok (World.fresh World.three_frames) /\
  (2 < List.length World.three_frames)%nat /\
  next (cv := World.cv) (sk := World.sk) (sp := World.sp)
       (World.fresh World.three_frames) (segment_rolling_from (co := World.co) 2 None)
  = (World.fresh World.three_frames, Finished, Raised (ValueError_prev_blobs 1)).
Proof.
  split; [reflexivity |]. split; [simpl; lia |].
  apply (proj2 (missing_history_raises (cv := World.cv) (sk := World.sk) (sp := World.sp)
                                       (co := World.co))
               LogWSegmenter World.three_frames World.the_params).
  - reflexivity.
  - simpl; lia.
Defined.

(** C10 on a segmenter just constructed. *)
Lemma continue_on_empty_table_raises_witness :
  frames_with_blobs (World.fresh World.two_frames) = [] /\
  next (cv := World.cv) (sk := World.sk) (sp := World.sp)
       (World.fresh World.two_frames) (segment_rolling_continue (co := World.co))
  = (World.fresh World.two_frames, Finished, Raised ValueError_max_empty).
Proof.
  split; [reflexivity |].
  apply (continue_on_empty_table_raises (cv := World.cv) (sk := World.sk) (sp := World.sp)
                                        (co := World.co)).
  reflexivity.
Defined.

(** ** The warm-up of the background subtractor *)

Section WarmUp.
Context {cv : Cv2} {sk : Skimage} {sp : Scipy} {co : Collaborators}.

Lemma warm_up_loop_feeds (v : Video) (ks : list Z) :
  forall sub0 sub,
    for_each
      (fun subtractor frame_n =>
         frame <- of_option IndexError (nth_error v (Z.to_nat frame_n)) ;;
         Ok (fst (subtractor_apply subtractor (rgb2gray frame))))
      ks sub0 = Ok sub ->
    exists frames,
      map Some frames = map (fun k => nth_error v (Z.to_nat k)) ks /\
      sub = feed sub0 frames.
Proof.
  induction ks as [| k ks IH]; simpl; intros sub0 sub E.
  - injection E as <-. exists []. auto.
  - destruct (nth_error v (Z.to_nat k)) as [frame |] eqn:N; simpl in E; [| discriminate].
    destruct (IH _ _ E) as (frames & Hmap & ->).
    exists (frame :: frames). simpl. now rewrite Hmap.
Qed.

Lemma map_Some_inj {A} (l l' : list A) : map Some l = map Some l' -> l = l'.
Proof.
  revert l'. induction l as [| x l IH]; intros [| y l']; simpl; try discriminate; auto.
  intros [= -> E]. f_equal. auto.
Qed.

Lemma rolling_start_ok (s : Segmenter) (from_frame_n : Z) (prev : option Blobs)
  (r : Rolling) :
  rolling_start s from_frame_n prev = Ok r ->
  exists v p,
    video s = VideoLoaded v /\
    0 <= from_frame_n < video_length s /\
    previous_blobs s from_frame_n prev = Ok p /\
    warm_up s v from_frame_n = Ok (subtractor r) /\
    r = mk_rolling (enumerate (skipn (Z.to_nat from_frame_n) v) from_frame_n)
                   p (subtractor r) [].
Proof.
  unfold rolling_start, loaded_video. intros E.
  destruct (video s) as [| | v]; simpl in E; try discriminate.
  destruct ((from_frame_n <? 0) || (video_length s <=? from_frame_n)) eqn:R;
    [discriminate |].
  apply orb_false_iff in R as [R1 R2].
  apply bind_ok in E as (p & Hp & E).
  apply bind_ok in E as (sub & Hsub & E).
  injection E as <-. exists v, p. simpl. repeat split; auto; lia.
Qed.

(** A call that passes the checks does start, on a video that has the
    frames before [from_frame_n]. *)
Lemma rolling_start_total (s : Segmenter) (v : Video) (from_frame_n : Z)
  (prev : option Blobs) (p : Blobs) :
  video s = VideoLoaded v ->
  0 <= from_frame_n < video_length s ->
  from_frame_n <= Z.of_nat (List.length v) ->
  previous_blobs s from_frame_n prev = Ok p ->
  exists r, rolling_start s from_frame_n prev = Ok r.
Proof.
  intros Hv Hrange Hlen Hp. unfold rolling_start, loaded_video. rewrite Hv. simpl.
  replace ((from_frame_n <? 0) || (video_length s <=? from_frame_n)) with false
    by (symmetry; apply orb_false_iff; split; lia).
  rewrite Hp. simpl.
  assert (W : exists sub, warm_up s v from_frame_n = Ok sub).
  { unfold warm_up.
    set (n := Z.min (movement_detection_history (params s)) from_frame_n).
    assert (Hks : forall k, In k (range (from_frame_n - n) from_frame_n) ->
                            0 <= k < Z.of_nat (List.length v)).
    { intros k Hk. apply In_range in Hk. lia. }
    revert Hks. generalize (create_subtractor (movement_detection_history (params s))).
    induction (range (from_frame_n - n) from_frame_n) as [| k ks IH]; simpl; intros sub0 Hks.
    - eauto.
    - destruct (nth_error v (Z.to_nat k)) as [frame |] eqn:N; simpl.
      + apply IH. auto.
      + apply nth_error_None in N. specialize (Hks k (or_introl eq_refl)). lia. }
  destruct W as [sub ->]. simpl. eauto.
Qed.

(** C8.  Let [segment_rolling_from(from_frame)] pass its checks (a video is
    loaded, 0 <= from_frame < video_length, the previous blobs are found or
    given) on a video that has the frames before [from_frame].  Then it
    reaches its loop, and the subtractor it holds there is a new one,
    [create_subtractor(history)], to which the gray frames of indices
    from_frame - n, ..., from_frame - 1 have been applied in this order and
    nothing else, their masks dropped, for
    n = min(movement_detection_history, from_frame): n frames when the
    history is not negative.  The subtractor depends on the video, the
    parameters and [from_frame] only: any other call on the same video with
    the same parameters, whatever the table and the earlier calls, starts
    with the same one. *)
Theorem warm_up_feeds_preceding_frames (s : Segmenter) (v : Video)
  (from_frame_n : Z) (prev : option Blobs) (p : Blobs) :
  video s = VideoLoaded v ->
  0 <= from_frame_n < video_length s ->
  from_frame_n <= Z.of_nat (List.length v) ->
  previous_blobs s from_frame_n prev = Ok p ->
  let history := movement_detection_history (params s) in
  let n := Z.min history from_frame_n in
  exists (r : Rolling) (frames : list ColorImage),
    rolling_start s from_frame_n prev = Ok r /\
    map Some frames
    = map (fun k => nth_error v (Z.to_nat k)) (range (from_frame_n - n) from_frame_n) /\
    List.length frames = Z.to_nat n /\
    (0 <= history -> Z.of_nat (List.length frames) = n) /\
    subtractor r = feed (create_subtractor history) frames /\
    (forall (s' : Segmenter) (prev' : option Blobs) (r' : Rolling),
        video s' = video s -> params s' = params s ->
        rolling_start s' from_frame_n prev' = Ok r' ->
        subtractor r' = subtractor r).
Proof.
  intros Hv Hrange Hvlen Hprev history n.
  destruct (rolling_start_total s prev Hv Hrange Hvlen Hprev) as [r E].
  destruct (rolling_start_ok _ _ _ E) as (v0 & p0 & Hv0 & _ & _ & Hw & _).
  rewrite Hv in Hv0. injection Hv0 as <-.
  unfold warm_up in Hw. fold history in Hw. fold n in Hw.
  destruct (warm_up_loop_feeds _ _ _ Hw) as (frames & Hmap & Hsub).
  assert (Hlen : List.length frames = Z.to_nat n).
  { rewrite <- (length_map Some), Hmap, length_map, length_range. f_equal. lia. }
  exists r, frames. repeat split; auto.
  - intros Hh. rewrite Hlen. lia.
  - intros s' prev' r' Hv' Hp' E'.
    destruct (rolling_start_ok _ _ _ E') as (v' & p' & Hv'' & _ & _ & Hw' & _).
    rewrite Hv', Hv in Hv''. injection Hv'' as <-.
    unfold warm_up in Hw'. rewrite Hp' in Hw'. fold history in Hw'. fold n in Hw'.
    destruct (warm_up_loop_feeds _ _ _ Hw') as (frames' & Hmap' & Hsub').
    rewrite <- Hmap in Hmap'. apply map_Some_inj in Hmap'. congruence.
Qed.
End WarmUp.

(** C8 on three frames: [segment_rolling_from(2, [])] with a history of 2
    shows frame 0 and then frame 1 to a new subtractor. *)
Lemma warm_up_feeds_preceding_frames_witness :
  video (World.fresh World.three_frames) = VideoLoaded (co := World.co) World.three_frames /\
  0 <= 2 < video_length (World.fresh World.three_frames) /\
  2 <= Z.of_nat (List.length World.three_frames) /\
  previous_blobs (World.fresh World.three_frames) 2 (Some []) = Ok [] /\
  exists r frames,
    rolling_start (cv := World.cv) (World.fresh World.three_frames) 2 (Some []) = Ok r /\
    map Some frames = [Some World.frame0; Some World.frame1] /\
    subtractor r
    = feed (cv := World.cv) (co := World.co) (create_subtractor (cv := World.cv) 2) frames.
Proof.
  split; [reflexivity |]. split; [simpl; lia |]. split; [simpl; lia |].
  split; [reflexivity |].
  destruct (warm_up_feeds_preceding_frames (cv := World.cv) (co := World.co)
              (World.fresh World.three_frames) (v := World.three_frames)
              (from_frame_n := 2) (Some []) (p := []))
    as (r & frames & Hr & Hmap & _ & _ & Hsub & _);
    [reflexivity | simpl; lia | simpl; lia | reflexivity |].
  exists r, frames. repeat split; assumption.
Defined.

(** ** One step of a generator and the table *)

Section Stepping.
Context {cv : Cv2} {sk : Skimage} {sp : Scipy} {co : Collaborators}.

Lemma rolling_next_effect (s : Segmenter) (r : Rolling) s' g' out :
  rolling_next s r = (s', g', out) -> step_effect s s' out.
Proof.
  unfold rolling_next, step_effect.
  destruct (pending r) as [| [frame_n frame] rest].
  - intros [= <- <- <-]. left. split; [reflexivity | discriminate].
  - destruct (dict_get frame_n (frames_with_blobs s)) as [stored |] eqn:G.
    + intros [= <- <- <-]. left. split; [reflexivity |].
      intros item [= <-]. exact G.
    + destruct (Segmenter_get_mask s (subtractor r) (rgb2gray frame)) as [sub' mask].
      destruct (Segmenter_get_blobs s (rgb2gray frame) mask (prev_blobs r)) as [blobs | e].
      * intros [= <- <- <-]. right. exists frame_n, blobs.
        rewrite dict_set_absent by exact G. auto.
      * intros [= <- <- <-]. left. split; [reflexivity | discriminate].
Qed.

Lemma start_then_next_effect (s : Segmenter) from_frame_n prev s' g' out :
  start_then_next s from_frame_n prev = (s', g', out) -> step_effect s s' out.
Proof.
  unfold start_then_next. destruct (rolling_start s from_frame_n prev) as [r | e].
  - apply rolling_next_effect.
  - intros [= <- <- <-]. left. split; [reflexivity | discriminate].
Qed.

Lemma next_effect (s : Segmenter) (g : generator) s' g' out :
  next s g = (s', g', out) -> step_effect s s' out.
Proof.
  destruct g as [from_frame_n prev | | r |]; simpl.
  - apply start_then_next_effect.
  - destruct (py_max (dict_keys (frames_with_blobs s))).
    + apply start_then_next_effect.
    + intros [= <- <- <-]. left. split; [reflexivity | discriminate].
  - apply rolling_next_effect.
  - intros [= <- <- <-]. left. split; [reflexivity | discriminate].
Qed.

(** Entries stay, with their lists. *)
Lemma step_keeps_entries s s' out k blobs :
  step_effect s s' out ->
  dict_get k (frames_with_blobs s) = Some blobs ->
  dict_get k (frames_with_blobs s') = Some blobs.
Proof.
  intros [[-> _] | (k' & blobs' & _ & -> & _)] G; [exact G |].
  simpl. now apply dict_get_app_Some.
Qed.

(** The keys after a step are the keys before it and the frame yielded. *)
Lemma step_keys s s' out k :
  step_effect s s' out ->
  In k (dict_keys (frames_with_blobs s')) <->
  In k (dict_keys (frames_with_blobs s)) \/ exists blobs, out = Yield (k, blobs).
Proof.
  intros [[-> Hy] | (k' & blobs' & Hnone & -> & ->)].
  - split; [auto |]. intros [Hin | [blobs ->]]; [exact Hin |].
    eapply dict_get_Some_In. exact (Hy _ eq_refl).
  - simpl. rewrite dict_keys_app, in_app_iff. simpl. split.
    + intros [Hin | [<- | []]]; [auto | right; eauto].
    + intros [Hin | [blobs [= -> _]]]; auto.
Qed.
End Stepping.

(** ** Sessions: the table against the frames visited *)

Section Sessions.
Context {cv : Cv2} {sk : Skimage} {sp : Scipy} {co : Collaborators}.

Lemma grows_refl (w : session) : grows w w.
Proof. constructor; auto. Qed.

Lemma grows_trans (w1 w2 w3 : session) : grows w1 w2 -> grows w2 w3 -> grows w1 w3.
Proof.
  intros [E1 K1 V1 KV1 VK1] [E2 K2 V2 KV2 VK2]. constructor; auto.
  - intros k Hk. destruct (KV2 k Hk) as [H2 | H2]; [| auto].
    destruct (KV1 k H2); auto.
  - intros k Hk. destruct (VK2 k Hk) as [H2 | H2]; [| auto].
    destruct (VK1 k H2); auto.
Qed.

Lemma act_grows (w : session) (a : action) : grows w (act w a).
Proof.
  destruct a as [from_frame_n prev | | i]; simpl;
    try (constructor; unfold table_keys; simpl; now auto).
  destruct (nth_error (gens w) i) as [g |]; [| apply grows_refl].
  destruct (next (seg w) g) as [[s' g'] out] eqn:N.
  apply next_effect in N.
  constructor; unfold table_keys; simpl.
  - intros k blobs. now apply step_keeps_entries with (out := out).
  - intros k Hk. apply (step_keys k N). auto.
  - intros k Hk. destruct out; try apply in_or_app; auto.
  - intros k Hk. apply (step_keys k N) in Hk as [Hk | [blobs ->]]; [auto |].
    right. apply in_or_app. simpl. auto.
  - intros k Hk. destruct out as [[k' blobs] | |]; auto.
    apply in_app_or in Hk as [Hk | [<- | []]]; [auto |].
    right. apply (step_keys k' N). eauto.
Qed.

Lemma run_grows (actions : list action) : forall w, grows w (run w actions).
Proof.
  induction actions as [| a actions IH]; intros w; simpl.
  - apply grows_refl.
  - eapply grows_trans; [apply act_grows | apply IH].
Qed.

(** C9.  Whatever generators a client creates on a segmenter and however
    far it advances each of them: the frame indices in the table are the
    indices that were there at the beginning together with the indices
    the generators have yielded, so on a segmenter that begins with an
    empty table they are exactly the indices yielded; and an entry that
    is in the table at some moment is there ever after, with the same
    list. *)
Theorem table_is_union_of_visited :
  (forall (s0 : Segmenter) (actions : list action) (k : Z),
      In k (table_keys (run (new_session s0) actions)) <->
      In k (dict_keys (frames_with_blobs s0)) \/
      In k (visited (run (new_session s0) actions))) /\
  (forall (s0 : Segmenter) (actions : list action),
      frames_with_blobs s0 = [] ->
      forall k, In k (table_keys (run (new_session s0) actions)) <->
                In k (visited (run (new_session s0) actions))) /\
  (forall (w : session) (actions : list action) (k : Z) (blobs : Blobs),
      dict_get k (frames_with_blobs (seg w)) = Some blobs ->
      dict_get k (frames_with_blobs (seg (run w actions))) = Some blobs).
Proof.
  assert (Union : forall (s0 : Segmenter) (actions : list action) (k : Z),
      In k (table_keys (run (new_session s0) actions)) <->
      In k (dict_keys (frames_with_blobs s0)) \/
      In k (visited (run (new_session s0) actions))).
  { intros s0 actions k.
    destruct (run_grows actions (new_session s0)) as [_ K _ KV VK].
    split.
    - apply KV.
    - intros [Hk | Hk]; [apply K; exact Hk |].
      destruct (VK k Hk) as [[] | Hin]. exact Hin. }
  split; [exact Union |]. split.
  - intros s0 actions Hempty k. rewrite Union, Hempty. simpl. tauto.
  - intros w actions k blobs. apply (entries_kept (run_grows actions w)).
Qed.
End Sessions.

(** C9 on two frames: frame 0 is segmented, then a second generator starts
    at frame 0 again and runs to the end. *)
Lemma table_is_union_of_visited_witness :
  frames_with_blobs (World.fresh World.two_frames) = [] /\
  forall k, In k (table_keys World.after_restart) <-> In k (visited World.after_restart).
Proof.
  split; [reflexivity |].
  apply (proj1 (proj2 (table_is_union_of_visited
                         (cv := World.cv) (sk := World.sk) (sp := World.sp) (co := World.co)))
               (World.fresh World.two_frames) World.restart).
  reflexivity.
Defined.

(** ** The previous blobs after a replayed frame *)

Section Replay.
Context {cv : Cv2} {sk : Skimage} {sp : Scipy} {co : Collaborators}.

(** The two branches of the loop.  A frame without entry is computed from
    the current [prev_blobs], and its list becomes the [prev_blobs] of the
    frame after it. *)
Lemma rolling_next_computed (s s' : Segmenter) (r r' : Rolling) frame_n frame rest blobs :
  pending r = (frame_n, frame) :: rest ->
  dict_get frame_n (frames_with_blobs s) = None ->
  rolling_next s r = (s', Suspended r', Yield (frame_n, blobs)) ->
  extract_calls r' = extract_calls r ++ [(frame_n, prev_blobs r)] /\
  prev_blobs r' = blobs /\
  dict_get frame_n (frames_with_blobs s') = Some blobs.
Proof.
  intros Hp Hg. unfold rolling_next. rewrite Hp, Hg.
  destruct (Segmenter_get_mask s (subtractor r) (rgb2gray frame)) as [sub' mask].
  destruct (Segmenter_get_blobs s (rgb2gray frame) mask (prev_blobs r)) as [blobs' | e];
    [| discriminate].
  intros [= <- <- <-]. simpl. repeat split.
  rewrite dict_set_absent by exact Hg. now apply dict_get_app_new.
Qed.

(** A frame with an entry is yielded from the table, and [prev_blobs] stays
    what it was. *)
Lemma rolling_next_replayed (s : Segmenter) (r : Rolling) frame_n frame rest stored :
  pending r = (frame_n, frame) :: rest ->
  dict_get frame_n (frames_with_blobs s) = Some stored ->
  rolling_next s r
  = (s, Suspended (mk_rolling rest (prev_blobs r) (subtractor r) (extract_calls r)),
     Yield (frame_n, stored)).
Proof.
  intros Hp Hg. unfold rolling_next. now rewrite Hp, Hg.
Qed.

(** C2 does not hold on the code.  Take a LogW segmenter whose table holds
    frame 0 alone, with the list [stored], on a video of two frames or
    more.  [segment_rolling_from(0)] sets [prev_blobs] to the empty list,
    yields the stored entry of frame 0 without touching [prev_blobs], and
    then computes frame 1: [_get_blobs] receives the empty list there,
    while the list of frame 0 is [stored]. *)
Theorem replay_leaves_prev_blobs_stale (s : Segmenter) (frame0 frame1 : ColorImage)
  (rest : Video) (stored : Blobs) :
  cls s = LogWSegmenter ->
  video s = VideoLoaded (frame0 :: frame1 :: rest) ->
  0 < video_length s ->
  frames_with_blobs s = [(0, stored)] ->
  exists g1 s2 r2 blobs,
    next s (segment_rolling_from 0 None) = (s, g1, Yield (0, stored)) /\
    next s g1 = (s2, Suspended r2, Yield (1, blobs)) /\
    extract_calls r2 = [(1, [])] /\
    dict_get 0 (frames_with_blobs s2) = Some stored /\
    (stored <> [] -> ~ fed_previous_frame s2 r2).
Proof.
  intros Hcls Hvideo Hlen Htable.
  set (r1 := mk_rolling (enumerate (frame1 :: rest) (0 + 1)) []
                        (create_subtractor (movement_detection_history (params s))) []).
  assert (First : next s (segment_rolling_from 0 None)
                  = (s, Suspended r1, Yield (0, stored))).
  { unfold next, segment_rolling_from, start_then_next, rolling_start, loaded_video.
    rewrite Hvideo. simpl.
    replace (video_length s <=? 0) with false by (symmetry; apply Z.leb_gt; lia).
    unfold warm_up. rewrite range_empty by lia. simpl.
    unfold rolling_next. simpl. rewrite Htable. reflexivity. }
  destruct (Segmenter_get_mask s (subtractor r1) (rgb2gray frame1)) as [sub' mask] eqn:M.
  destruct (logw_without_prev_blobs (rgb2gray frame1) mask (params s)) as [blobs L].
  exists (Suspended r1),
         (with_frames s (dict_set 1 blobs (frames_with_blobs s))),
         (mk_rolling (enumerate rest (0 + 1 + 1)) blobs sub' [(1, [])]),
         blobs.
  split; [exact First |]. split.
  - unfold next, rolling_next. simpl. rewrite Htable. simpl.
    fold r1. simpl in M. rewrite M.
    unfold Segmenter_get_blobs. rewrite Hcls, L. reflexivity.
  - split; [reflexivity |]. split; [simpl; rewrite Htable; reflexivity |].
    intros Hne Hfed. specialize (Hfed 1 [] (or_introl eq_refl)).
    simpl in Hfed. rewrite Htable in Hfed. simpl in Hfed. congruence.
Qed.
End Replay.

(** C2 on two frames: once frame 0 is in the table with one blob, a
    generator that starts at frame 0 again computes frame 1 from the empty
    list. *)
Lemma replay_leaves_prev_blobs_stale_witness :
  cls World.after_frame0 = LogWSegmenter /\
  video World.after_frame0 = VideoLoaded (co := World.co) [World.frame0; World.frame1] /\
  0 < video_length World.after_frame0 /\
  (exists stored,
      frames_with_blobs World.after_frame0 = [(0, stored)] /\ stored <> [] /\
      exists g1 s2 r2 blobs,
        next (cv := World.cv) (sk := World.sk) (sp := World.sp)
             World.after_frame0 (segment_rolling_from (co := World.co) 0 None)
        = (World.after_frame0, g1, Yield (0, stored)) /\
        next (cv := World.cv) (sk := World.sk) (sp := World.sp) World.after_frame0 g1
        = (s2, Suspended r2, Yield (1, blobs)) /\
        extract_calls r2 = [(1, [])] /\
        ~ fed_previous_frame s2 r2).
Proof.
  split; [reflexivity |]. split; [reflexivity |]. split; [reflexivity |].
  eexists. split; [reflexivity |]. split; [discriminate |].
  destruct (replay_leaves_prev_blobs_stale
              (cv := World.cv) (sk := World.sk) (sp := World.sp) (co := World.co)
              World.after_frame0 (frame0 := World.frame0) (frame1 := World.frame1)
              (rest := []) eq_refl eq_refl eq_refl eq_refl)
    as (g1 & s2 & r2 & blobs & H1 & H2 & H3 & _ & H5).
  exists g1, s2, r2, blobs. repeat split; auto.
  apply H5. discriminate.
Defined.

(** ** The guard against a moved camera *)






Section JoltGuard.
Context {cv : Cv2} {sk : Skimage}.



End JoltGuard.


(** ** The minimum area of a region *)

Section AreaFilter.
Context {cv : Cv2} {sk : Skimage} {sp : Scipy} {co : Collaborators}.





End AreaFilter.


(** ** A threshold that cannot be found *)

Section ThresholdFailure.
Context {cv : Cv2} {sk : Skimage} {sp : Scipy} {co : Collaborators}.

(** C6 holds for the first extractor only.  When [threshold_isodata]
    raises IndexError on the response of the frame, [_get_blobs_logw]
    catches it and returns no blobs, and [_get_blobs_doh], on a mask with a
    true pixel, lets it through: the call raises IndexError, and so does
    the generator of a DoH segmenter that reaches such a frame, which is
    finished by it. *)
Theorem doh_threshold_failure_raises :
  (forall frame movement_mask params prev_blobs,
      skfilters_threshold_isodata (logw_response frame movement_mask params) = None ->
      _get_blobs_logw frame movement_mask params prev_blobs = Ok []) /\
  (forall frame movement_mask params,
      np_any truth_bool movement_mask = true ->
      skfilters_threshold_isodata (snd (doh_response frame movement_mask params)) = None ->
      _get_blobs_doh frame movement_mask params = Raise IndexError) /\
  (forall (s : Segmenter) (r : Rolling) frame_n frame rest,
      cls s = DohSegmenter ->
      pending r = (frame_n, frame) :: rest ->
      dict_get frame_n (frames_with_blobs s) = None ->
      let mask := snd (Segmenter_get_mask s (subtractor r) (rgb2gray frame)) in
      np_any truth_bool mask = true ->
      skfilters_threshold_isodata (snd (doh_response (rgb2gray frame) mask (params s)))
      = None ->
      next s (Suspended r) = (s, Finished, Raised IndexError)).
Proof.
  assert (Doh : forall frame movement_mask params,
      np_any truth_bool movement_mask = true ->
      skfilters_threshold_isodata (snd (doh_response frame movement_mask params)) = None ->
      _get_blobs_doh frame movement_mask params = Raise IndexError).
  { intros frame movement_mask params Hany Hnone.
    destruct (_get_blobs_doh frame movement_mask params) as [blobs | e] eqn:D.
    - exfalso. revert D.
      unfold _get_blobs_doh, _get_blobs_in_frame_with_steps_doh.
      rewrite Hany. simpl.
      destruct (doh_marker_mask _ _ _); simpl; [| discriminate].
      unfold doh_response in Hnone. simpl in Hnone.
      rewrite Hnone. simpl. discriminate.
    - apply doh_raises_IndexError in D. now subst e. }
  split; [| split; [exact Doh |]].
  - intros frame movement_mask params prev Hnone.
    unfold _get_blobs_logw. rewrite Hnone.
    destruct (negb (np_any truth_bool movement_mask)); [reflexivity |].
    destruct (negb (np_any truth_Q _)); reflexivity.
  - intros s r frame_n frame rest Hcls Hpending Hget mask Hany Hnone.
    unfold next, rolling_next. rewrite Hpending, Hget. subst mask.
    destruct (Segmenter_get_mask s (subtractor r) (rgb2gray frame)) as [sub' mask'].
    simpl in *. unfold Segmenter_get_blobs. rewrite Hcls.
    now rewrite (Doh _ _ _ Hany Hnone).
Qed.
End ThresholdFailure.

(** C6 on a frame of one gray value, under a mask that is true everywhere. *)
Lemma doh_threshold_failure_raises_witness :
  np_any truth_bool World.everywhere = true /\
  skfilters_threshold_isodata (Skimage := World.sk)
    (snd (doh_response (sk := World.sk) World.flat_frame World.everywhere World.the_params))
  = None /\
  _get_blobs_doh (sk := World.sk) (co := World.co)
                 World.flat_frame World.everywhere World.the_params
  = Raise IndexError.
Proof.
  split; [reflexivity |]. split; [reflexivity |].
  apply (proj1 (proj2 (doh_threshold_failure_raises
                         (cv := World.cv) (sk := World.sk) (sp := World.sp) (co := World.co)))
               World.flat_frame World.everywhere World.the_params);
    reflexivity.
Defined.

(** ** Serialization *)

Section RoundTrip.
Context {cv : Cv2} {sk : Skimage} {sp : Scipy} {co : Collaborators}.

(** The comprehension of [encode]: distinct frame numbers give distinct
    strings, so every entry is appended. *)
Lemma encode_frames {B} (f : Blobs -> B) (t : dict Z Blobs) :
  forall acc : dict string B,
    NoDup (dict_keys acc ++ map py_str (dict_keys t)) ->
    fold_left (fun acc fb => dict_set (py_str (fst fb)) (f (snd fb)) acc) t acc
    = acc ++ map (fun fb => (py_str (fst fb), f (snd fb))) t.
Proof.
  induction t as [| [k blobs] t IH]; intros acc Hnd; simpl.
  - now rewrite app_nil_r.
  - simpl in Hnd.
    assert (Habsent : dict_get (py_str k) acc = None).
    { apply dict_get_None. apply NoDup_remove_2 in Hnd.
      intros Hin. apply Hnd, in_or_app. auto. }
    rewrite dict_set_absent by exact Habsent.
    rewrite IH.
    + now rewrite <- app_assoc.
    + rewrite dict_keys_app, <- app_assoc. exact Hnd.
Qed.

(** The comprehension of [decode] on what [encode] wrote. *)
Lemma decode_frames {B} (e : Blobs -> B) (d : B -> Blobs) (t : dict Z Blobs) :
  forall acc : dict Z Blobs,
    NoDup (dict_keys acc ++ dict_keys t) ->
    for_each
      (fun acc fb => frame <- py_int (fst fb) ;; Ok (dict_set frame (d (snd fb)) acc))
      (map (fun fb => (py_str (fst fb), e (snd fb))) t) acc
    = Ok (acc ++ map (fun fb => (fst fb, d (e (snd fb)))) t).
Proof.
  induction t as [| [k blobs] t IH]; intros acc Hnd; simpl.
  - now rewrite app_nil_r.
  - rewrite py_int_str. simpl. simpl in Hnd.
    assert (Habsent : dict_get k acc = None).
    { apply dict_get_None. apply NoDup_remove_2 in Hnd.
      intros Hin. apply Hnd, in_or_app. auto. }
    rewrite dict_set_absent by exact Habsent.
    rewrite IH.
    + now rewrite <- app_assoc.
    + rewrite dict_keys_app, <- app_assoc. exact Hnd.
Qed.

Lemma NoDup_map_py_str (l : list Z) : NoDup l -> NoDup (map py_str l).
Proof.
  induction 1 as [| k l Hnotin Hnd IH]; simpl; constructor; auto.
  rewrite in_map_iff. intros (k' & E & Hin).
  apply py_str_inj in E. congruence.
Qed.

Lemma dict_get_map_values {B C} (h : B -> C) (t : dict Z B) (k : Z) :
  dict_get k (map (fun fb => (fst fb, h (snd fb))) t) = option_map h (dict_get k t).
Proof.
  induction t as [| [k' v] t IH]; simpl; [reflexivity |].
  destruct (k =? k'); auto.
Qed.

Lemma decode_encode (x : Segmenter) :
  dict_wf (frames_with_blobs x) ->
  decode (cls x) (encode x)
  = Ok (mk_segmenter (cls x)
          (map (fun fb => (fst fb,
                           map (fun b => Blob_decode (Blob_encode b) (video_shape x))
                               (snd fb)))
               (frames_with_blobs x))
          VideoUnset
          (SegmenterParameters_of_dict (dict_of_items (params_items (params x))))
          (video_length x) (video_shape x)).
Proof.
  intros Hwf. unfold decode, encode, dict_items. simpl.
  rewrite encode_frames by (simpl; apply NoDup_map_py_str; exact Hwf).
  simpl.
  rewrite (decode_frames (map Blob_encode)
             (map (fun blob => Blob_decode blob (video_shape x)))) by exact Hwf.
  simpl. do 2 f_equal.
  apply map_ext. intros [k blobs]. simpl. now rewrite map_map.
Qed.

(** C7.  Let [Blob.decode(Blob.encode(b), shape)] have the centre and the
    radius of [b] up to [eps], and let the parameter containers give back
    the pairs they were built from.  Then [decode(encode(x))] succeeds on
    every segmenter [x] and gives a segmenter with the [video_length], the
    [video_shape] and the parameter pairs of [x], and with the integer
    frame indices of [x] in the same order; the entry of a frame holds,
    for each blob of [x] at that frame and in the same order, the blob
    decoded with the stored video shape from its encoding, so it has as
    many blobs, each with centre and radius equal up to [eps]. *)
Theorem decode_encode_roundtrip (eps : Q) (x : Segmenter) :
  Blob_roundtrip eps ->
  params_roundtrip ->
  dict_wf (frames_with_blobs x) ->
  exists y : Segmenter,
    decode (cls x) (encode x) = Ok y /\
    video_length y = video_length x /\
    video_shape y = video_shape x /\
    params y = SegmenterParameters_of_dict (dict_of_items (params_items (params x))) /\
    params_items (params y) = params_items (params x) /\
    dict_keys (frames_with_blobs y) = dict_keys (frames_with_blobs x) /\
    forall (k : Z) (blobs : Blobs),
      dict_get k (frames_with_blobs x) = Some blobs ->
      exists blobs' : Blobs,
        dict_get k (frames_with_blobs y) = Some blobs' /\
        blobs' = map (fun b => Blob_decode (Blob_encode b) (video_shape x)) blobs /\
        List.length blobs' = List.length blobs /\
        Forall2 (blob_close eps) blobs' blobs.
Proof.
  intros Hblob Hparams Hwf.
  eexists. split; [apply decode_encode; exact Hwf |]. simpl.
  split; [reflexivity |]. split; [reflexivity |]. split; [reflexivity |].
  split; [apply Hparams |]. split.
  - unfold dict_keys. rewrite map_map. reflexivity.
  - intros k blobs Hget. rewrite dict_get_map_values.
    unfold Blobs in *. rewrite Hget. simpl.
    eexists. split; [reflexivity |]. split; [reflexivity |].
    split; [apply length_map |].
    clear Hget. induction blobs as [| b blobs IH]; simpl; constructor; auto.
Qed.
End RoundTrip.

Lemma World_Blob_roundtrip : Blob_roundtrip (co := World.co) 0.
Proof.
  intros b sh. unfold blob_close. simpl.
  assert (Z0 : forall a : Q, (Qabs (a - a) <= 0)%Q).
  { intros a. unfold Qminus. rewrite Qplus_opp_r. apply Qle_refl. }
  repeat split; apply Z0.
Qed.

Lemma World_params_roundtrip : params_roundtrip (co := World.co).
Proof.
  intros [thr dp rad hist tol sigma dmin dmax dnum].
  cbn. rewrite !Z.div_1_r. reflexivity.
Qed.

(** C7 on a table of two frames with one blob each. *)
Lemma decode_encode_roundtrip_witness :
  Blob_roundtrip (co := World.co) 0 /\
  params_roundtrip (co := World.co) /\
  dict_wf (frames_with_blobs (seg World.after_restart)) /\
  exists y : Segmenter (co := World.co),
    decode (cls (seg World.after_restart)) (encode (seg World.after_restart)) = Ok y /\
    video_length y = 2 /\
    video_shape y = (2%nat, 2%nat) /\
    params_items (Collaborators := World.co) (params y)
    = params_items (Collaborators := World.co) World.the_params /\
    dict_keys (frames_with_blobs y) = [0; 1] /\
    exists blobs' : Blobs,
      dict_get 1 (frames_with_blobs y) = Some blobs' /\
      List.length blobs' = 1%nat /\
      Forall2 (blob_close 0) blobs' [World.the_blob].
Proof.
  assert (Hwf : dict_wf (frames_with_blobs (seg World.after_restart))).
  { unfold dict_wf. change (NoDup [0; 1]).
    repeat constructor; simpl; intuition discriminate. }
  split; [exact World_Blob_roundtrip |].
  split; [exact World_params_roundtrip |].
  split; [exact Hwf |].
  destruct (decode_encode_roundtrip (co := World.co) (seg World.after_restart)
              World_Blob_roundtrip World_params_roundtrip Hwf)
    as (y & Hy & Hl & Hs & _ & Hp & Hk & Hb).
  exists y. repeat split; try assumption.
  destruct (Hb 1 [World.the_blob] eq_refl) as (blobs' & G & _ & Hn & Hc).
  exists blobs'. repeat split; assumption.
Defined.


(** * Further properties *)

Unset Implicit Arguments.

(** ** More on ranges, maxima and tables *)

Lemma range_cons (a b : Z) : a < b -> range a b = a :: range (a + 1) b.
Proof.
  intros Hlt. unfold range.
  replace (Z.to_nat (b - a)) with (S (Z.to_nat (b - (a + 1)))) by lia.
  simpl. f_equal; [lia |].
  rewrite <- seq_shift, map_map. apply map_ext. intros i. lia.
Qed.

Lemma range_snoc (a b : Z) : a <= b -> range a (b + 1) = range a b ++ [b].
Proof.
  intros Hle. unfold range.
  replace (Z.to_nat (b + 1 - a)) with (Z.to_nat (b - a) + 1)%nat by lia.
  rewrite seq_app, map_app. simpl. do 2 f_equal. lia.
Qed.

Lemma fold_max_ge (l : list Z) (x : Z) :
  x <= fold_left Z.max l x /\ forall k, In k l -> k <= fold_left Z.max l x.
Proof.
  revert x. induction l as [| y l IH]; intros x; simpl.
  - split; [lia | intros k []].
  - destruct (IH (Z.max x y)) as [H1 H2]. split; [lia |].
    intros k [<- | Hk]; [lia | auto].
Qed.

Lemma fold_max_in (l : list Z) (x : Z) :
  fold_left Z.max l x = x \/ In (fold_left Z.max l x) l.
Proof.
  revert x. induction l as [| y l IH]; intros x; simpl; [auto |].
  destruct (IH (Z.max x y)) as [E | Hin]; [| auto].
  rewrite E. destruct (Z.max_spec x y) as [[_ ->] | [_ ->]]; auto.
Qed.

(** [max] of a non-empty collection is one of its elements and no smaller
    than any of them. *)
Lemma py_max_spec (l : list Z) :
  l <> [] ->
  exists m, py_max l = Some m /\ In m l /\ forall k, In k l -> k <= m.
Proof.
  destruct l as [| x l]; [congruence | intros _]. simpl.
  eexists. split; [reflexivity |].
  destruct (fold_max_ge l x) as [H1 H2]. split.
  - destruct (fold_max_in l x) as [-> | Hin]; auto.
  - intros k [<- | Hk]; auto.
Qed.

Lemma py_max_range (n : Z) : 0 < n -> py_max (range 0 n) = Some (n - 1).
Proof.
  intros Hn.
  destruct (py_max_spec (range 0 n)) as (m & E & Hin & Hmax).
  - rewrite range_cons by lia. discriminate.
  - rewrite E. f_equal. apply In_range in Hin.
    specialize (Hmax (n - 1)). rewrite In_range in Hmax. lia.
Qed.

Section TableFacts.
Context {cv : Cv2} {sk : Skimage} {sp : Scipy} {co : Collaborators}.

Lemma segmented_up_to_get (m : Z) (s : Segmenter) (k : Z) :
  segmented_up_to m s ->
  (0 <= k < m -> exists stored, dict_get k (frames_with_blobs s) = Some stored) /\
  (~ 0 <= k < m -> dict_get k (frames_with_blobs s) = None).
Proof.
  intros Hm. unfold segmented_up_to in Hm. split; intros Hk.
  - destruct (dict_get k (frames_with_blobs s)) as [stored |] eqn:G; [eauto |].
    apply dict_get_None in G. rewrite Hm, In_range in G. contradiction.
  - apply dict_get_None. rewrite Hm, In_range. exact Hk.
Qed.

Lemma segmented_up_to_grow (m : Z) (s : Segmenter) (blobs : Blobs) :
  0 <= m ->
  segmented_up_to m s ->
  segmented_up_to (m + 1) (with_frames s (dict_set m blobs (frames_with_blobs s))).
Proof.
  intros Hm Hs. unfold segmented_up_to in *. simpl.
  rewrite dict_set_absent.
  - rewrite dict_keys_app, Hs, range_snoc by lia. reflexivity.
  - apply dict_get_None. rewrite Hs, In_range. lia.
Qed.

Lemma is_finished_segmented (s : Segmenter) :
  is_finished s = true <-> 0 < video_length s /\ segmented_up_to (video_length s) s.
Proof.
  rewrite is_finished_keys. unfold segmented_up_to. split.
  - intros [Hne Hk]. split; [| exact Hk].
    destruct (Z_lt_le_dec 0 (video_length s)) as [Hlt | Hle]; [exact Hlt |].
    rewrite range_empty in Hk by lia.
    destruct (frames_with_blobs s); [congruence | discriminate].
  - intros [Hlt Hk]. split; [| exact Hk].
    intros E. rewrite E, range_cons in Hk by lia. discriminate.
Qed.
End TableFacts.

(** ** When a generator starts, and what a failed step leaves *)

Section StartAndFail.
Context {cv : Cv2} {sk : Skimage} {sp : Scipy} {co : Collaborators}.

Lemma previous_blobs_ok (s : Segmenter) (from_frame_n : Z) (prev : option Blobs) :
  (exists p, previous_blobs s from_frame_n prev = Ok p) <->
  from_frame_n = 0 \/
  dict_contains (from_frame_n - 1) (frames_with_blobs s) = true \/
  prev <> None.
Proof.
  unfold previous_blobs, dict_contains.
  destruct (Z.eqb_spec from_frame_n 0) as [E | Hne]; [split; eauto |].
  destruct (dict_get (from_frame_n - 1) (frames_with_blobs s)) as [stored |] eqn:G.
  - destruct (frames_with_blobs s) as [| kv t]; [discriminate |].
    split; eauto.
  - destruct prev as [given |].
    + split; [intros _; right; right; discriminate |].
      intros _. destruct (frames_with_blobs s); eauto.
    + split.
      * intros [p E]. destruct (frames_with_blobs s); discriminate.
      * intros [E | [E | E]]; congruence.
Qed.

Lemma warm_up_ok (s : Segmenter) (v : Video) (from_frame_n : Z) :
  0 <= from_frame_n ->
  (exists sub, warm_up s v from_frame_n = Ok sub) <->
  (0 < Z.min (movement_detection_history (params s)) from_frame_n ->
   from_frame_n <= Z.of_nat (List.length v)).
Proof.
  intros Hfrom. unfold warm_up.
  set (n := Z.min (movement_detection_history (params s)) from_frame_n).
  split.
  - intros [sub E] Hn.
    destruct (warm_up_loop_feeds _ _ _ E) as (frames & Hmap & _).
    assert (Hin : In (from_frame_n - 1) (range (from_frame_n - n) from_frame_n))
      by (apply In_range; lia).
    apply (in_map (fun k => nth_error v (Z.to_nat k))) in Hin.
    rewrite <- Hmap in Hin. apply in_map_iff in Hin as (frame & Hframe & _).
    assert (Hlt : (Z.to_nat (from_frame_n - 1) < List.length v)%nat).
    { apply nth_error_Some. congruence. }
    lia.
  - intros Hlen.
    assert (Hks : forall k, In k (range (from_frame_n - n) from_frame_n) ->
                            0 <= k < Z.of_nat (List.length v)).
    { intros k Hk. apply In_range in Hk. lia. }
    revert Hks. generalize (create_subtractor (movement_detection_history (params s))).
    induction (range (from_frame_n - n) from_frame_n) as [| k ks IH]; simpl; intros sub0 Hks.
    + eauto.
    + destruct (nth_error v (Z.to_nat k)) as [frame |] eqn:N; simpl.
      * apply IH. auto.
      * apply nth_error_None in N. specialize (Hks k (or_introl eq_refl)). lia.
Qed.

Lemma rolling_start_succeeds (s : Segmenter) (from_frame_n : Z)
  (prev : option Blobs) :
  (exists r, rolling_start s from_frame_n prev = Ok r) <->
  exists v,
    video s = VideoLoaded v /\
    0 <= from_frame_n < video_length s /\
    (from_frame_n = 0 \/
     dict_contains (from_frame_n - 1) (frames_with_blobs s) = true \/
     prev <> None) /\
    (0 < Z.min (movement_detection_history (params s)) from_frame_n ->
     from_frame_n <= Z.of_nat (List.length v)).
Proof.
  split.
  - intros [r E].
    destruct (rolling_start_ok _ _ _ E) as (v & p & Hv & Hrange & Hp & Hw & _).
    exists v. split; [exact Hv |]. split; [exact Hrange |]. split.
    + apply previous_blobs_ok. eauto.
    + apply (warm_up_ok s v); [lia | eauto].
  - intros (v & Hv & Hrange & Hprev & Hwarm).
    apply previous_blobs_ok in Hprev as [p Hp].
    apply (warm_up_ok s v) in Hwarm as [sub Hsub]; [| lia].
    unfold rolling_start, loaded_video. rewrite Hv. simpl.
    replace ((from_frame_n <? 0) || (video_length s <=? from_frame_n)) with false
      by (symmetry; apply orb_false_iff; split; lia).
    rewrite Hp. simpl. rewrite Hsub. simpl. eauto.
Qed.

(** X1.  [segment_rolling_from(from_frame, prev_blobs)] reaches its loop
    exactly when a video is loaded, [from_frame] is an index below
    [video_length], the blobs before it are known (it is 0, or frame
    [from_frame - 1] is in the table, or [prev_blobs] is given), and the
    video has the frames that the warm-up reads, if it reads any. *)
Theorem start_succeeds_exactly_when (s : Segmenter) (from_frame_n : Z)
  (prev : option Blobs) :
  (exists r, rolling_start s from_frame_n prev = Ok r) <->
  exists v,
    video s = VideoLoaded v /\
    0 <= from_frame_n < video_length s /\
    (from_frame_n = 0 \/
     dict_contains (from_frame_n - 1) (frames_with_blobs s) = true \/
     prev <> None) /\
    (0 < Z.min (movement_detection_history (params s)) from_frame_n ->
     from_frame_n <= Z.of_nat (List.length v)).
Proof.
  exact (rolling_start_succeeds s from_frame_n prev).
Qed.

Lemma rolling_next_no_yield (s : Segmenter) (r : Rolling) s' g' out :
  rolling_next s r = (s', g', out) ->
  match out with
  | Yield _ => exists r', g' = Suspended r'
  | _ => s' = s /\ g' = Finished
  end.
Proof.
  unfold rolling_next.
  destruct (pending r) as [| [frame_n frame] rest]; [intros [= <- <- <-]; auto |].
  destruct (dict_get frame_n (frames_with_blobs s)); [intros [= <- <- <-]; eauto |].
  destruct (Segmenter_get_mask s (subtractor r) (rgb2gray frame)) as [sub' mask].
  destruct (Segmenter_get_blobs s (rgb2gray frame) mask (prev_blobs r));
    intros [= <- <- <-]; eauto.
Qed.

(** X2.  A step of a generator that yields nothing, because the frames are
    over or because an exception is raised, leaves the segmenter exactly as
    it was and finishes the generator; a step that yields leaves the
    generator suspended; and a finished generator gives StopIteration on
    every later advance, without touching the segmenter. *)
Theorem step_without_yield_changes_nothing (s : Segmenter) (g : generator) s' g' out :
  next s g = (s', g', out) ->
  match out with
  | Yield _ => exists r', g' = Suspended r'
  | _ => s' = s /\ g' = Finished /\ next s' g' = (s', Finished, StopIteration)
  end.
Proof.
  intros N.
  assert (H : match out with
              | Yield _ => exists r', g' = Suspended r'
              | _ => s' = s /\ g' = Finished
              end).
  { revert N. destruct g as [from_frame_n prev | | r |]; simpl.
    - unfold start_then_next. destruct (rolling_start s from_frame_n prev).
      + apply rolling_next_no_yield.
      + intros [= <- <- <-]. auto.
    - destruct (py_max (dict_keys (frames_with_blobs s))).
      + unfold start_then_next. destruct (rolling_start s (z + 1) None).
        * apply rolling_next_no_yield.
        * intros [= <- <- <-]. auto.
      + intros [= <- <- <-]. auto.
    - apply rolling_next_no_yield.
    - intros [= <- <- <-]. auto. }
  destruct out; [exact H | |]; destruct H as [-> ->]; auto.
Qed.
End StartAndFail.

(** X2 on a generator that starts where the table has no history. *)
Lemma step_without_yield_changes_nothing_witness :
  next (cv := World.cv) (sk := World.sk) (sp := World.sp)
       (World.fresh World.three_frames) (segment_rolling_from (co := World.co) 2 None)
  = (World.fresh World.three_frames, Finished, Raised (ValueError_prev_blobs 1)) /\
  next (cv := World.cv) (sk := World.sk) (sp := World.sp)
       (World.fresh World.three_frames) (Finished (cv := World.cv) (co := World.co))
  = (World.fresh World.three_frames, Finished, StopIteration).
Proof.
  assert (N : next (cv := World.cv) (sk := World.sk) (sp := World.sp)
                (World.fresh World.three_frames) (segment_rolling_from (co := World.co) 2 None)
              = (World.fresh World.three_frames, Finished, Raised (ValueError_prev_blobs 1)))
    by reflexivity.
  split; [exact N |].
  exact (proj2 (proj2 (step_without_yield_changes_nothing _ _ _ _ _ N))).
Defined.

(** ** Which previous blobs a generator starts with *)

Section Resuming.
Context {cv : Cv2} {sk : Skimage} {sp : Scipy} {co : Collaborators}.

(** X3.  The argument [prev_blobs] counts only where the table has nothing
    to say: at frame 0 the generator starts from the empty list, and where
    frame [from_frame - 1] is in the table it starts from the stored list,
    whatever the caller passes; so in both cases the call behaves as the
    call without the argument.  Only otherwise does it start from the list
    given. *)
Theorem stored_blobs_override_argument (s : Segmenter) (from_frame_n : Z)
  (given : Blobs) :
  (from_frame_n = 0 ->
   previous_blobs s from_frame_n (Some given) = Ok [] /\
   next s (segment_rolling_from from_frame_n (Some given))
   = next s (segment_rolling_from from_frame_n None)) /\
  (forall stored,
      from_frame_n <> 0 ->
      dict_get (from_frame_n - 1) (frames_with_blobs s) = Some stored ->
      previous_blobs s from_frame_n (Some given) = Ok stored /\
      next s (segment_rolling_from from_frame_n (Some given))
      = next s (segment_rolling_from from_frame_n None)) /\
  (from_frame_n <> 0 ->
   dict_get (from_frame_n - 1) (frames_with_blobs s) = None ->
   previous_blobs s from_frame_n (Some given) = Ok given).
Proof.
  assert (Same : forall p,
             previous_blobs s from_frame_n (Some given) = Ok p ->
             previous_blobs s from_frame_n None = Ok p ->
             next s (segment_rolling_from from_frame_n (Some given))
             = next s (segment_rolling_from from_frame_n None)).
  { intros p E1 E2. unfold next, segment_rolling_from, start_then_next, rolling_start.
    now rewrite E1, E2. }
  split; [| split].
  - intros ->. split; [reflexivity |]. now apply (Same []).
  - intros stored Hne G.
    assert (E : forall prev, previous_blobs s from_frame_n prev = Ok stored).
    { intros prev. unfold previous_blobs.
      destruct (Z.eqb_spec from_frame_n 0); [contradiction |].
      rewrite G. destruct (frames_with_blobs s); [discriminate | reflexivity]. }
    split; [apply E |]. apply (Same stored); apply E.
  - intros Hne G. unfold previous_blobs.
    destruct (Z.eqb_spec from_frame_n 0); [contradiction |].
    rewrite G. destruct (frames_with_blobs s); reflexivity.
Qed.

(** X4.  On a table that is not empty, [segment_rolling_continue()] is
    [segment_rolling_from(last + 1)] for the largest index [last] of the
    table, wherever in the table that index was entered; the list it starts
    from is the one stored for [last].  When [last] is the last frame,
    [reached_last_frame], there is nothing to continue: on a segmenter with
    a video the first advance raises the ValueError of a frame that does not
    exist, for the index [video_length], instead of ending quietly. *)
Theorem continue_resumes_after_last (s : Segmenter) :
  frames_with_blobs s <> [] ->
  exists last stored,
    In last (dict_keys (frames_with_blobs s)) /\
    (forall k, In k (dict_keys (frames_with_blobs s)) -> k <= last) /\
    dict_get last (frames_with_blobs s) = Some stored /\
    next s segment_rolling_continue = next s (segment_rolling_from (last + 1) None) /\
    previous_blobs s (last + 1) None = Ok (if last + 1 =? 0 then [] else stored) /\
    (forall v, reached_last_frame s = true -> video s = VideoLoaded v ->
               next s segment_rolling_continue
               = (s, Finished, Raised (ValueError_frame (video_length s)))).
Proof.
  intros Hne.
  destruct (py_max_spec (dict_keys (frames_with_blobs s))) as (last & E & Hin & Hmax).
  { destruct (frames_with_blobs s); [congruence | discriminate]. }
  destruct (dict_get last (frames_with_blobs s)) as [stored |] eqn:G.
  2: { apply dict_get_None in G. contradiction. }
  assert (Continue : next s segment_rolling_continue
                     = next s (segment_rolling_from (last + 1) None)).
  { unfold next at 1, segment_rolling_continue. now rewrite E. }
  exists last, stored. repeat split; auto.
  - unfold previous_blobs. destruct (last + 1 =? 0); [reflexivity |].
    replace (last + 1 - 1) with last by lia. rewrite G.
    destruct (frames_with_blobs s); [congruence | reflexivity].
  - intros v Hreached Hv. rewrite Continue.
    unfold reached_last_frame in Hreached. rewrite E in Hreached.
    apply Z.eqb_eq in Hreached.
    unfold next, segment_rolling_from, start_then_next, rolling_start, loaded_video.
    rewrite Hv. simpl.
    replace (last + 1) with (video_length s) by lia.
    replace (video_length s <=? video_length s) with true by (symmetry; apply Z.leb_refl).
    now rewrite orb_true_r.
Qed.

(** X5.  [blobs_at] answers for exactly the frames of the table, and raises
    KeyError for every other index.  What a generator yields for a frame
    is what [blobs_at] returns for it from then on, whatever generators are
    created and advanced afterwards. *)
Theorem blobs_at_returns_what_was_yielded :
  (forall (s : Segmenter) (k : Z),
      (In k (dict_keys (frames_with_blobs s)) <-> exists blobs, blobs_at s k = Ok blobs) /\
      (~ In k (dict_keys (frames_with_blobs s)) <->
       blobs_at s k = Raise KeyError_not_segmented)) /\
  (forall (s : Segmenter) (g : generator) s' g' (k : Z) (blobs : Blobs),
      next s g = (s', g', Yield (k, blobs)) ->
      blobs_at s' k = Ok blobs /\
      forall (w : session) (actions : list action),
        seg w = s' -> blobs_at (seg (run w actions)) k = Ok blobs).
Proof.
  split.
  - intros s k. unfold blobs_at.
    destruct (dict_get k (frames_with_blobs s)) as [stored |] eqn:G; simpl.
    + assert (Hin : In k (dict_keys (frames_with_blobs s)))
        by (eapply dict_get_Some_In; eauto).
      split; split; eauto; try discriminate. intros Hn. contradiction.
    + apply dict_get_None in G. split; split; auto.
      * intros Hin. contradiction.
      * intros [blobs E]. discriminate.
  - intros s g s' g' k blobs N.
    assert (G : dict_get k (frames_with_blobs s') = Some blobs).
    { apply next_effect in N as [[-> Hy] | (k' & blobs' & Hnone & -> & [= -> ->])].
      - exact (Hy _ eq_refl).
      - simpl. now apply dict_get_app_new. }
    split; [unfold blobs_at; now rewrite G |].
    intros w actions <-. unfold blobs_at.
    now rewrite (entries_kept (run_grows actions w) _ G).
Qed.

(** X6.  A finished segmenter has reached the last frame, and its generator
    of [segment_rolling_continue] has nothing left to do: the first advance
    raises, see X4. *)
Theorem finished_has_reached_last_frame (s : Segmenter) :
  is_finished s = true -> reached_last_frame s = true.
Proof.
  intros Hf. apply is_finished_segmented in Hf as [Hlen Hk].
  unfold reached_last_frame. unfold segmented_up_to in Hk.
  rewrite Hk, py_max_range by lia. apply Z.eqb_refl.
Qed.
End Resuming.

(** X3 on the table that holds frame 0 alone: a list passed for frame 0 is
    not the list frame 1 starts from. *)
Lemma stored_blobs_override_argument_witness :
  dict_get 0 (frames_with_blobs World.after_frame0) = Some [World.the_blob] /\
  previous_blobs World.after_frame0 1 (Some []) = Ok [World.the_blob].
Proof.
  split; [reflexivity |].
  destruct (proj1 (proj2 (stored_blobs_override_argument
                            (cv := World.cv) (sk := World.sk) (sp := World.sp)
                            World.after_frame0 1 []))
                  [World.the_blob]) as [E _].
  - discriminate.
  - reflexivity.
  - exact E.
Defined.

(** X4 on a table finished by one pass: the continuation raises. *)
Lemma continue_resumes_after_last_witness :
  frames_with_blobs (seg World.after_restart) <> [] /\
  reached_last_frame (seg World.after_restart) = true /\
  next (cv := World.cv) (sk := World.sk) (sp := World.sp)
       (seg World.after_restart) (segment_rolling_continue (co := World.co))
  = (seg World.after_restart, Finished, Raised (ValueError_frame 2)).
Proof.
  assert (Hne : frames_with_blobs (seg World.after_restart) <> []) by discriminate.
  split; [exact Hne |]. split; [reflexivity |].
  destruct (continue_resumes_after_last (cv := World.cv) (sk := World.sk) (sp := World.sp)
              (seg World.after_restart) Hne)
    as (last & stored & _ & _ & _ & _ & _ & Hend).
  exact (Hend World.two_frames eq_refl eq_refl).
Defined.

(** X5 on the first frame of a new segmenter. *)
Lemma blobs_at_returns_what_was_yielded_witness :
  next (cv := World.cv) (sk := World.sk) (sp := World.sp)
       (World.fresh World.two_frames) (segment_rolling_from (co := World.co) 0 None)
  = (World.after_frame0,
     Suspended (mk_rolling (cv := World.cv) (co := World.co)
                           [(1, World.frame1)] [World.the_blob] [World.frame0] [(0, [])]),
     Yield (0, [World.the_blob])) /\
  blobs_at World.after_frame0 0 = Ok [World.the_blob].
Proof.
  assert (N : next (cv := World.cv) (sk := World.sk) (sp := World.sp)
                (World.fresh World.two_frames) (segment_rolling_from (co := World.co) 0 None)
              = (World.after_frame0,
                 Suspended (mk_rolling (cv := World.cv) (co := World.co)
                              [(1, World.frame1)] [World.the_blob] [World.frame0] [(0, [])]),
                 Yield (0, [World.the_blob]))) by reflexivity.
  split; [exact N |].
  exact (proj1 (proj2 (blobs_at_returns_what_was_yielded
                         (cv := World.cv) (sk := World.sk) (sp := World.sp) (co := World.co))
                      _ _ _ _ _ _ N)).
Defined.

(** X6 on a table finished by one pass. *)
Lemma finished_has_reached_last_frame_witness :
  is_finished (seg World.after_restart) = true /\
  reached_last_frame (seg World.after_restart) = true.
Proof.
  split; [reflexivity |].
  apply (finished_has_reached_last_frame (co := World.co)). reflexivity.
Defined.

(** ** Whole passes over the video *)

Lemma skipn_nth_error {A} (l : list A) (i : nat) (x : A) :
  nth_error l i = Some x -> skipn i l = x :: skipn (S i) l.
Proof.
  revert i. induction l as [| y l IH]; intros [| i]; simpl; try discriminate.
  - intros [= ->]. reflexivity.
  - intros E. rewrite (IH _ E). reflexivity.
Qed.

Lemma nth_error_range (n : Z) (i : nat) :
  Z.of_nat i < n -> nth_error (range 0 n) i = Some (Z.of_nat i).
Proof.
  intros Hi. unfold range.
  rewrite nth_error_map, nth_error_seq.
  destruct (Nat.ltb_spec i (Z.to_nat (n - 0))); [reflexivity | lia].
Qed.

Section Passes.
Context {cv : Cv2} {sk : Skimage} {sp : Scipy} {co : Collaborators}.

(** In a table with distinct keys, the entry at any position is what a
    lookup of its key finds. *)
Lemma dict_get_nth_error (t : dict Z Blobs) (i : nat) (k : Z) (blobs : Blobs) :
  dict_wf t -> nth_error t i = Some (k, blobs) -> dict_get k t = Some blobs.
Proof.
  unfold dict_wf. revert i.
  induction t as [| [k' b'] t IH]; intros [| i] Hnd E; simpl in *; try discriminate.
  - injection E as -> ->. now rewrite Z.eqb_refl.
  - inversion Hnd as [| ? ? Hnotin Hnd']; subst.
    destruct (Z.eqb_spec k k') as [-> | _]; [| eauto].
    exfalso. apply Hnotin. apply nth_error_In in E.
    apply (in_map fst) in E. exact E.
Qed.

Lemma range_NoDup (a b : Z) : NoDup (range a b).
Proof.
  unfold range. generalize 0%nat.
  induction (Z.to_nat (b - a)) as [| n IH]; intros start; simpl; constructor.
  - rewrite in_map_iff. intros (i & E & Hi). apply in_seq in Hi. lia.
  - apply IH.
Qed.

Lemma segmented_up_to_wf (m : Z) (s : Segmenter) :
  segmented_up_to m s -> dict_wf (frames_with_blobs s).
Proof.
  unfold segmented_up_to, dict_wf. intros ->. apply range_NoDup.
Qed.

(** In a table that holds the frames 0, ..., m - 1 in order, the entry of
    frame k is at position k. *)
Lemma segmented_up_to_nth (m : Z) (s : Segmenter) (k : Z) (stored : Blobs) :
  segmented_up_to m s ->
  dict_get k (frames_with_blobs s) = Some stored ->
  nth_error (frames_with_blobs s) (Z.to_nat k) = Some (k, stored).
Proof.
  intros Hm G.
  assert (Hk : 0 <= k < m).
  { apply dict_get_Some_In in G. unfold segmented_up_to in Hm.
    rewrite Hm in G. now apply In_range in G. }
  assert (Hkey : nth_error (dict_keys (frames_with_blobs s)) (Z.to_nat k) = Some k).
  { unfold segmented_up_to in Hm. rewrite Hm, nth_error_range by lia. f_equal. lia. }
  unfold dict_keys in Hkey. rewrite nth_error_map in Hkey.
  destruct (nth_error (frames_with_blobs s) (Z.to_nat k)) as [[k' b] |] eqn:N;
    [| discriminate].
  simpl in Hkey. injection Hkey as ->.
  apply dict_get_nth_error in N; [| eapply segmented_up_to_wf; eauto].
  congruence.
Qed.

Lemma next_same_video (s : Segmenter) (g : generator) s' g' out :
  next s g = (s', g', out) ->
  cls s' = cls s /\ video s' = video s /\ params s' = params s /\
  video_length s' = video_length s /\ video_shape s' = video_shape s.
Proof.
  intros N. apply next_effect in N as [[-> _] | (k & blobs & _ & -> & _)]; simpl; auto.
Qed.

Lemma collect_same_video (fuel : nat) :
  forall (s : Segmenter) (g : generator) s' items e,
    collect fuel s g = (s', items, e) ->
    cls s' = cls s /\ video s' = video s /\ params s' = params s /\
    video_length s' = video_length s /\ video_shape s' = video_shape s.
Proof.
  induction fuel as [| fuel IH]; intros s g s' items e; simpl.
  - intros [= <- _ _]. auto.
  - destruct (next s g) as [[s1 g1] out] eqn:N.
    apply next_same_video in N as (N1 & N2 & N3 & N4 & N5).
    destruct out as [item | |].
    + destruct (collect fuel s1 g1) as [[s2 items2] e2] eqn:C.
      intros [= <- _ _]. apply IH in C as (C1 & C2 & C3 & C4 & C5).
      repeat split; congruence.
    + intros [= <- _ _]. auto.
    + intros [= <- _ _]. auto.
Qed.

Lemma collect_keeps_entries (fuel : nat) :
  forall (s : Segmenter) (g : generator) s' items e k blobs,
    collect fuel s g = (s', items, e) ->
    dict_get k (frames_with_blobs s) = Some blobs ->
    dict_get k (frames_with_blobs s') = Some blobs.
Proof.
  induction fuel as [| fuel IH]; intros s g s' items e k blobs; simpl.
  - intros [= <- _ _]. auto.
  - destruct (next s g) as [[s1 g1] out] eqn:N.
    apply next_effect in N.
    destruct out as [item | |].
    + destruct (collect fuel s1 g1) as [[s2 items2] e2] eqn:C.
      intros [= <- _ _] G. eapply IH; eauto. eapply step_keeps_entries; eauto.
    + intros [= <- _ _] G. eapply step_keeps_entries; eauto.
    + intros [= <- _ _] G. eapply step_keeps_entries; eauto.
Qed.

(** The heart of the matter: a suspended generator that stands at frame [j]
    of a table holding the frames below [m], for [j <= m]. *)
Lemma collect_suspended (frames : list ColorImage) :
  forall (j m : Z) (s : Segmenter) (r : Rolling) (fuel : nat) s' items e,
    pending r = enumerate frames j ->
    segmented_up_to m s ->
    0 <= j <= m ->
    (List.length frames < fuel)%nat ->
    collect fuel s (Suspended r) = (s', items, e) ->
    e <> Interrupted /\
    (exists m', m <= m' /\ segmented_up_to m' s') /\
    (forall k blobs, In (k, blobs) items ->
                     dict_get k (frames_with_blobs s') = Some blobs) /\
    (e = Exhausted ->
     segmented_up_to (Z.max m (j + Z.of_nat (List.length frames))) s' /\
     map fst items = range j (j + Z.of_nat (List.length frames))) /\
    (j + Z.of_nat (List.length frames) <= m ->
     s' = s /\ e = Exhausted /\
     items = firstn (List.length frames) (skipn (Z.to_nat j) (frames_with_blobs s))).
Proof.
  induction frames as [| frame frames IH];
    intros j m s r fuel s' items e Hp Hm Hj Hfuel C.
  - destruct fuel as [| fuel]; [simpl in Hfuel; lia |].
    simpl in C. unfold rolling_next in C. rewrite Hp in C. simpl in C.
    injection C as <- <- <-. simpl.
    split; [discriminate |]. split; [exists m; split; [lia | exact Hm] |].
    split; [intros k blobs [] |]. split.
    + intros _. rewrite Z.add_0_r, Z.max_l by lia.
      split; [exact Hm | now rewrite range_empty by lia].
    + auto.
  - destruct fuel as [| fuel]; [simpl in Hfuel; lia |].
    simpl in Hfuel. simpl in C. unfold rolling_next in C. rewrite Hp in C.
    simpl in C.
    destruct (dict_get j (frames_with_blobs s)) as [stored |] eqn:G.
    + (* the frame is replayed *)
      assert (Hjm : j < m).
      { apply dict_get_Some_In in G. unfold segmented_up_to in Hm.
        rewrite Hm in G. apply In_range in G. lia. }
      destruct (collect fuel s _) as [[s2 items2] e2] eqn:C2 in C.
      injection C as <- <- <-.
      assert (Hkept : dict_get j (frames_with_blobs s2) = Some stored)
        by (eapply collect_keeps_entries; eauto).
      eapply (IH (j + 1) m) in C2; [| reflexivity | exact Hm | lia | lia].
      destruct C2 as (Hint & Hup & Hitems & Hex & Hall).
      split; [exact Hint |]. split; [exact Hup |]. split; [| split].
      * intros k blobs [[= <- <-] | Hin]; [exact Hkept | auto].
      * intros He. destruct (Hex He) as [Hseg Hkeys]. split.
        -- replace (j + Z.of_nat (List.length (frame :: frames)))
             with (j + 1 + Z.of_nat (List.length frames)) by (simpl; lia).
           exact Hseg.
        -- simpl map. rewrite Hkeys.
           replace (j + Z.of_nat (List.length (frame :: frames)))
             with (j + 1 + Z.of_nat (List.length frames)) by (simpl; lia).
           symmetry. apply range_cons. lia.
      * intros Hle. destruct Hall as (-> & -> & ->); [simpl in Hle; lia |].
        split; [reflexivity |]. split; [reflexivity |].
        assert (N : nth_error (frames_with_blobs s) (Z.to_nat j) = Some (j, stored))
          by (eapply segmented_up_to_nth; eauto).
        apply skipn_nth_error in N. rewrite N.
        replace (Z.to_nat (j + 1)) with (S (Z.to_nat j)) by lia.
        reflexivity.
    + (* the frame is computed *)
      assert (Hjm : j = m).
      { destruct (Z.eq_dec j m) as [| Hne]; [assumption |].
        destruct (proj1 (segmented_up_to_get m s j Hm)) as [stored G']; [lia | congruence]. }
      subst j.
      destruct (Segmenter_get_mask s (subtractor r) (rgb2gray frame)) as [sub' mask].
      destruct (Segmenter_get_blobs s (rgb2gray frame) mask (prev_blobs r)) as [blobs | err].
      * destruct (collect fuel _ _) as [[s2 items2] e2] eqn:C2 in C.
        injection C as <- <- <-.
        assert (Hkept : dict_get m (frames_with_blobs s2) = Some blobs).
        { eapply collect_keeps_entries; [exact C2 |].
          simpl. rewrite dict_set_absent by exact G. now apply dict_get_app_new. }
        eapply (IH (m + 1) (m + 1)) in C2;
          [| reflexivity | apply segmented_up_to_grow; [lia | exact Hm] | lia | lia].
        destruct C2 as (Hint & (m' & Hm' & Hup) & Hitems & Hex & _).
        split; [exact Hint |]. split; [exists m'; split; [lia | exact Hup] |].
        split; [| split].
        -- intros k blobs' [[= <- <-] | Hin]; [exact Hkept | auto].
        -- intros He. destruct (Hex He) as [Hseg Hkeys]. split.
           ++ replace (Z.max m (m + Z.of_nat (List.length (frame :: frames))))
                with (Z.max (m + 1) (m + 1 + Z.of_nat (List.length frames)))
                by (simpl List.length; lia).
              exact Hseg.
           ++ simpl map. rewrite Hkeys.
              replace (m + Z.of_nat (List.length (frame :: frames)))
                with (m + 1 + Z.of_nat (List.length frames)) by (simpl; lia).
              symmetry. apply range_cons. lia.
        -- simpl List.length. intros Hle. lia.
      * injection C as <- <- <-.
        split; [discriminate |]. split; [exists m; split; [lia | exact Hm] |].
        split; [intros k blobs [] |]. split; [discriminate |].
        simpl List.length. intros Hle. lia.
Qed.
End Passes.

Section WholePasses.
Context {cv : Cv2} {sk : Skimage} {sp : Scipy} {co : Collaborators}.

Lemma collect_started (fuel : nat) (s : Segmenter) (from_frame_n : Z)
  (prev : option Blobs) (r : Rolling) :
  rolling_start s from_frame_n prev = Ok r ->
  collect (S fuel) s (segment_rolling_from from_frame_n prev)
  = collect (S fuel) s (Suspended r).
Proof.
  intros E. simpl. unfold start_then_next. now rewrite E.
Qed.

(** A generator that starts inside or right after the frames of the table. *)
Lemma rolling_start_inside (s : Segmenter) (v : Video) (m from_frame_n : Z)
  (prev : option Blobs) :
  video s = VideoLoaded v ->
  video_length s = Z.of_nat (List.length v) ->
  segmented_up_to m s ->
  0 <= from_frame_n <= m ->
  from_frame_n < video_length s ->
  exists r,
    rolling_start s from_frame_n prev = Ok r /\
    pending r = enumerate (skipn (Z.to_nat from_frame_n) v) from_frame_n.
Proof.
  intros Hv Hlen Hm Hfrom Hlt.
  destruct (proj2 (rolling_start_succeeds s from_frame_n prev)) as [r E].
  { exists v. split; [exact Hv |]. split; [lia |]. split; [| lia].
    destruct (Z.eq_dec from_frame_n 0) as [| Hne]; [auto |].
    right. left. unfold dict_contains.
    destruct (proj1 (segmented_up_to_get m s (from_frame_n - 1) Hm)) as [stored ->];
      [lia | reflexivity]. }
  exists r. split; [exact E |].
  destruct (rolling_start_ok _ _ _ E) as (v' & p & Hv' & _ & _ & _ & ->).
  simpl. congruence.
Qed.

Lemma collect_from_inside (s : Segmenter) (v : Video) (m from_frame_n : Z)
  (prev : option Blobs) (fuel : nat) s' items e :
  video s = VideoLoaded v ->
  video_length s = Z.of_nat (List.length v) ->
  segmented_up_to m s ->
  0 <= from_frame_n <= m ->
  m <= video_length s ->
  from_frame_n < video_length s ->
  (List.length v < fuel)%nat ->
  collect fuel s (segment_rolling_from from_frame_n prev) = (s', items, e) ->
  e <> Interrupted /\
  (forall k blobs, In (k, blobs) items -> blobs_at s' k = Ok blobs) /\
  (e = Exhausted ->
   is_finished s' = true /\ map fst items = range from_frame_n (video_length s)) /\
  (m = video_length s ->
   s' = s /\ e = Exhausted /\
   items = skipn (Z.to_nat from_frame_n) (frames_with_blobs s)).
Proof.
  intros Hv Hlen Hm Hfrom Hmn Hlt Hfuel C.
  destruct (rolling_start_inside s v m from_frame_n prev Hv Hlen Hm Hfrom Hlt)
    as (r & E & Hp).
  destruct fuel as [| fuel]; [lia |].
  rewrite (collect_started fuel s from_frame_n prev r E) in C.
  pose proof (collect_same_video _ _ _ _ _ _ C) as (_ & _ & _ & Hvl & _).
  assert (Hframes : from_frame_n
                    + Z.of_nat (List.length (skipn (Z.to_nat from_frame_n) v))
                    = video_length s).
  { rewrite length_skipn. lia. }
  eapply collect_suspended in C; [| exact Hp | exact Hm | lia |].
  2: { rewrite length_skipn. lia. }
  destruct C as (Hint & _ & Hitems & Hex & Hall).
  rewrite Hframes in Hex, Hall.
  split; [exact Hint |]. split; [| split].
  - intros k blobs Hin. unfold blobs_at. now rewrite (Hitems _ _ Hin).
  - intros He. destruct (Hex He) as [Hseg Hkeys]. split; [| exact Hkeys].
    apply is_finished_segmented. rewrite Hvl. split; [lia |].
    now rewrite Z.max_r in Hseg by lia.
  - intros ->. destruct Hall as (-> & -> & ->); [lia |].
    split; [reflexivity |]. split; [reflexivity |].
    apply firstn_all2. rewrite !length_skipn.
    assert (Hl : List.length (frames_with_blobs s) = List.length v).
    { unfold segmented_up_to in Hm.
      rewrite <- (length_map fst). fold (dict_keys (frames_with_blobs s)).
      rewrite Hm, length_range. lia. }
    lia.
Qed.

Lemma pass_from_inside (s : Segmenter) (v : Video) (m from_frame_n : Z)
  (prev : option Blobs) (fuel : nat) s' items e :
  video s = VideoLoaded v ->
  video_length s = Z.of_nat (List.length v) ->
  segmented_up_to m s ->
  0 <= from_frame_n <= m ->
  m <= video_length s ->
  from_frame_n < video_length s ->
  (List.length v < fuel)%nat ->
  collect fuel s (segment_rolling_from from_frame_n prev) = (s', items, e) ->
  e <> Interrupted /\
  (e = Exhausted ->
   is_finished s' = true /\
   map fst items = range from_frame_n (video_length s) /\
   forall k blobs, In (k, blobs) items -> blobs_at s' k = Ok blobs).
Proof.
  intros Hv Hlen Hm Hfrom Hmn Hlt Hfuel C.
  destruct (collect_from_inside s v m from_frame_n prev fuel s' items e
              Hv Hlen Hm Hfrom Hmn Hlt Hfuel C)
    as (Hint & Hitems & Hex & _).
  split; [exact Hint |]. intros He. destruct (Hex He). auto.
Qed.

(** X7.  On a segmenter whose video has [video_length] frames and whose
    table holds the frames below some [m] in order, be it empty, a pass of
    [segment_rolling_from(from_frame)] that starts at or before [m], with
    enough advances, ends with StopIteration or with an exception.  When it
    ends with StopIteration the segmenter is finished, the pass has yielded
    the frames from [from_frame] to the last one, each once and in order,
    and [blobs_at] returns for each of them the list that was yielded. *)
Theorem full_pass_finishes (s : Segmenter) (v : Video) (m from_frame_n : Z)
  (prev : option Blobs) (fuel : nat) s' items e :
  video s = VideoLoaded v ->
  video_length s = Z.of_nat (List.length v) ->
  segmented_up_to m s ->
  0 <= from_frame_n <= m ->
  m <= video_length s ->
  from_frame_n < video_length s ->
  (List.length v < fuel)%nat ->
  collect fuel s (segment_rolling_from from_frame_n prev) = (s', items, e) ->
  e <> Interrupted /\
  (e = Exhausted ->
   is_finished s' = true /\
   map fst items = range from_frame_n (video_length s) /\
   forall k blobs, In (k, blobs) items -> blobs_at s' k = Ok blobs).
Proof.
  exact (pass_from_inside s v m from_frame_n prev fuel s' items e).
Qed.

Lemma finished_pass_replays (s : Segmenter) (v : Video) (from_frame_n : Z)
  (prev : option Blobs) (fuel : nat) :
  is_finished s = true ->
  video s = VideoLoaded v ->
  video_length s = Z.of_nat (List.length v) ->
  0 <= from_frame_n < video_length s ->
  (List.length v < fuel)%nat ->
  collect fuel s (segment_rolling_from from_frame_n prev)
  = (s, skipn (Z.to_nat from_frame_n) (frames_with_blobs s), Exhausted).
Proof.
  intros Hf Hv Hlen Hfrom Hfuel.
  apply is_finished_segmented in Hf as [Hpos Hm].
  destruct (collect fuel s (segment_rolling_from from_frame_n prev))
    as [[s' items] e] eqn:C.
  destruct (collect_from_inside s v (video_length s) from_frame_n prev fuel s' items e
              Hv Hlen Hm ltac:(lia) ltac:(lia) ltac:(lia) Hfuel C) as (_ & _ & _ & Hall).
  destruct (Hall eq_refl) as (-> & -> & ->). reflexivity.
Qed.


Lemma items_are_table (t items : dict Z Blobs) :
  dict_wf t ->
  map fst items = dict_keys t ->
  (forall k blobs, In (k, blobs) items -> dict_get k t = Some blobs) ->
  items = t.
Proof.
  unfold dict_wf, dict_keys. revert items.
  induction t as [| [k b] t IH]; intros [| [k' b'] items] Hnd Hk Hget;
    simpl in *; try discriminate; [reflexivity |].
  injection Hk as -> Hk. inversion Hnd as [| ? ? Hnotin Hnd']; subst.
  pose proof (Hget k b' (or_introl eq_refl)) as G. rewrite Z.eqb_refl in G.
  injection G as <-. f_equal. apply IH; auto.
  intros k2 b2 Hin. specialize (Hget k2 b2 (or_intror Hin)).
  destruct (Z.eqb_spec k2 k) as [-> | _]; [| exact Hget].
  exfalso. apply Hnotin. rewrite <- Hk.
  apply (in_map fst) in Hin. exact Hin.
Qed.

(** X9.  Two passes agree.  When a first pass from frame 0 over a new
    segmenter ends with StopIteration, what it has yielded is the table,
    entry by entry, and every later pass from frame 0 yields the same
    pairs again without changing anything. *)
Theorem second_pass_repeats_first (s : Segmenter) (v : Video) (fuel : nat) s' items :
  frames_with_blobs s = [] ->
  video s = VideoLoaded v ->
  video_length s = Z.of_nat (List.length v) ->
  0 < video_length s ->
  (List.length v < fuel)%nat ->
  collect fuel s (segment_rolling_from 0 None) = (s', items, Exhausted) ->
  items = frames_with_blobs s' /\
  forall prev, collect fuel s' (segment_rolling_from 0 prev) = (s', items, Exhausted).
Proof.
  intros Hempty Hv Hlen Hpos Hfuel C.
  assert (Hm : segmented_up_to 0 s).
  { unfold segmented_up_to. now rewrite Hempty. }
  pose proof (collect_same_video _ _ _ _ _ _ C) as (_ & Hv' & _ & Hvl & _).
  destruct (collect_from_inside s v 0 0 None fuel s' items Exhausted
              Hv Hlen Hm ltac:(lia) ltac:(lia) ltac:(lia) Hfuel C) as (_ & Hitems & Hex & _).
  destruct (Hex eq_refl) as [Hf Hkeys].
  assert (Hseg : segmented_up_to (video_length s') s')
    by (apply is_finished_segmented, Hf).
  assert (E : items = frames_with_blobs s').
  { apply items_are_table.
    - eapply segmented_up_to_wf; eauto.
    - unfold segmented_up_to in Hseg. now rewrite Hseg, Hvl.
    - intros k blobs Hin. specialize (Hitems k blobs Hin). unfold blobs_at in Hitems.
      destruct (dict_get k (frames_with_blobs s')); simpl in Hitems; congruence. }
  split; [exact E |]. intros prev. rewrite E.
  rewrite (finished_pass_replays s' v 0 prev fuel); auto;
    [congruence | congruence | lia].
Qed.

(** X10.  After an interrupted pass the table holds the frames below some
    [m], with 0 < m < video_length.  A pass of [segment_rolling_continue()]
    then yields the frames from [m] on and no earlier one, and when it ends
    with StopIteration the segmenter is finished. *)
Theorem continue_completes_the_table (s : Segmenter) (v : Video) (m : Z)
  (fuel : nat) s' items e :
  video s = VideoLoaded v ->
  video_length s = Z.of_nat (List.length v) ->
  segmented_up_to m s ->
  0 < m < video_length s ->
  (List.length v < fuel)%nat ->
  collect fuel s segment_rolling_continue = (s', items, e) ->
  e <> Interrupted /\
  (e = Exhausted ->
   is_finished s' = true /\
   map fst items = range m (video_length s) /\
   forall k blobs, In (k, blobs) items -> blobs_at s' k = Ok blobs).
Proof.
  intros Hv Hlen Hm Hrange Hfuel C.
  assert (Same : collect fuel s segment_rolling_continue
                 = collect fuel s (segment_rolling_from m None)).
  { destruct fuel as [| fuel]; [reflexivity |]. simpl.
    unfold segmented_up_to in Hm. rewrite Hm, py_max_range by lia.
    now replace (m - 1 + 1) with m by lia. }
  rewrite Same in C.
  apply (pass_from_inside s v m m None fuel s' items e Hv Hlen Hm);
    auto; lia.
Qed.
End WholePasses.

(** X1 on three frames: frame 2 can be the start once a list is given. *)
Lemma start_succeeds_exactly_when_witness :
  (exists v,
      video (World.fresh World.three_frames) = VideoLoaded (co := World.co) v /\
      0 <= 2 < video_length (World.fresh World.three_frames) /\
      (2 = 0 \/
       dict_contains 1 (frames_with_blobs (World.fresh World.three_frames)) = true \/
       Some (@nil World.blob) <> None) /\
      (0 < Z.min (movement_detection_history (params (World.fresh World.three_frames))) 2 ->
       2 <= Z.of_nat (List.length v))) /\
  exists r, rolling_start (cv := World.cv) (World.fresh World.three_frames) 2 (Some []) = Ok r.
Proof.
  assert (H : exists v,
      video (World.fresh World.three_frames) = VideoLoaded (co := World.co) v /\
      0 <= 2 < video_length (World.fresh World.three_frames) /\
      (2 = 0 \/
       dict_contains 1 (frames_with_blobs (World.fresh World.three_frames)) = true \/
       Some (@nil World.blob) <> None) /\
      (0 < Z.min (movement_detection_history (params (World.fresh World.three_frames))) 2 ->
       2 <= Z.of_nat (List.length v))).
  { exists World.three_frames. split; [reflexivity |]. split; [simpl; lia |].
    split; [right; right; discriminate | intros _; simpl; lia]. }
  split; [exact H |].
  exact (proj2 (start_succeeds_exactly_when (cv := World.cv) (co := World.co)
                  (World.fresh World.three_frames) 2 (Some [])) H).
Defined.

(** X7 on two frames, from a new segmenter. *)
Lemma full_pass_finishes_witness :
  video (World.fresh World.two_frames) = VideoLoaded (co := World.co) World.two_frames /\
  segmented_up_to 0 (World.fresh World.two_frames) /\
  collect (cv := World.cv) (sk := World.sk) (sp := World.sp) 3
          (World.fresh World.two_frames) (segment_rolling_from (co := World.co) 0 None)
  = (seg World.after_restart, frames_with_blobs (seg World.after_restart), Exhausted) /\
  is_finished (seg World.after_restart) = true /\
  map fst (frames_with_blobs (seg World.after_restart)) = range 0 2.
Proof.
  assert (C : collect (cv := World.cv) (sk := World.sk) (sp := World.sp) 3
                (World.fresh World.two_frames) (segment_rolling_from (co := World.co) 0 None)
              = (seg World.after_restart, frames_with_blobs (seg World.after_restart),
                 Exhausted)) by reflexivity.
  split; [reflexivity |]. split; [reflexivity |]. split; [exact C |].
  destruct (full_pass_finishes (cv := World.cv) (sk := World.sk) (sp := World.sp)
              (World.fresh World.two_frames) World.two_frames 0 0 None 3
              (seg World.after_restart) (frames_with_blobs (seg World.after_restart))
              Exhausted eq_refl eq_refl eq_refl) as [_ H];
    try (simpl; lia); [exact C |].
  destruct (H eq_refl) as (Hf & Hk & _). split; assumption.
Defined.


(** X9 on two frames. *)
Lemma second_pass_repeats_first_witness :
  frames_with_blobs (World.fresh World.two_frames) = [] /\
  collect (cv := World.cv) (sk := World.sk) (sp := World.sp) 3
          (World.fresh World.two_frames) (segment_rolling_from (co := World.co) 0 None)
  = (seg World.after_restart, frames_with_blobs (seg World.after_restart), Exhausted) /\
  collect (cv := World.cv) (sk := World.sk) (sp := World.sp) 3
          (seg World.after_restart) (segment_rolling_from (co := World.co) 0 (Some []))
  = (seg World.after_restart, frames_with_blobs (seg World.after_restart), Exhausted).
Proof.
  assert (C : collect (cv := World.cv) (sk := World.sk) (sp := World.sp) 3
                (World.fresh World.two_frames) (segment_rolling_from (co := World.co) 0 None)
              = (seg World.after_restart, frames_with_blobs (seg World.after_restart),
                 Exhausted)) by reflexivity.
  split; [reflexivity |]. split; [exact C |].
  destruct (second_pass_repeats_first (cv := World.cv) (sk := World.sk) (sp := World.sp)
              (World.fresh World.two_frames) World.two_frames 3
              (seg World.after_restart) (frames_with_blobs (seg World.after_restart))
              eq_refl eq_refl eq_refl) as [_ H]; try (simpl; lia); [exact C |].
  apply H.
Defined.

(** X10 on two frames, after frame 0 alone was segmented. *)
Lemma continue_completes_the_table_witness :
  segmented_up_to 1 World.after_frame0 /\
  collect (cv := World.cv) (sk := World.sk) (sp := World.sp) 3
          World.after_frame0 (segment_rolling_continue (co := World.co))
  = (seg World.after_restart, [(1, [World.the_blob])], Exhausted) /\
  is_finished (seg World.after_restart) = true.
Proof.
  assert (C : collect (cv := World.cv) (sk := World.sk) (sp := World.sp) 3
                World.after_frame0 (segment_rolling_continue (co := World.co))
              = (seg World.after_restart, [(1, [World.the_blob])], Exhausted))
    by reflexivity.
  split; [reflexivity |]. split; [exact C |].
  destruct (continue_completes_the_table (cv := World.cv) (sk := World.sk) (sp := World.sp)
              World.after_frame0 World.two_frames 1 3
              (seg World.after_restart) [(1, [World.the_blob])] Exhausted
              eq_refl eq_refl eq_refl) as [_ H]; try (simpl; lia); [exact C |].
  destruct (H eq_refl) as (Hf & _). exact Hf.
Defined.

(** ** The property [frames_with_blobs] *)

Section PropertyGenerator.
Context {cv : Cv2} {sk : Skimage} {sp : Scipy} {co : Collaborators}.


End PropertyGenerator.


(** ** What every session keeps *)

Lemma Forall_list_set {A} (P : A -> Prop) (l : list A) (i : nat) (x : A) :
  Forall P l -> P x -> Forall P (list_set l i x).
Proof.
  intros Hl Hx. revert i.
  induction Hl as [| y l Hy Hl IH]; intros [| i]; simpl; constructor; auto.
Qed.

Lemma enumerate_skipn {A} (v : list A) (j : nat) (k : Z) (x : A) (rest : list (Z * A)) :
  enumerate (skipn j v) (Z.of_nat j) = (k, x) :: rest ->
  k = Z.of_nat j /\ nth_error v j = Some x /\
  rest = enumerate (skipn (S j) v) (Z.of_nat (S j)).
Proof.
  destruct (nth_error v j) as [y |] eqn:N.
  - rewrite (skipn_nth_error _ _ _ N). simpl. intros [= <- <- <-].
    repeat split. do 2 f_equal. lia.
  - apply nth_error_None in N. rewrite skipn_all2 by exact N. discriminate.
Qed.

Section Invariants.
Context {cv : Cv2} {sk : Skimage} {sp : Scipy} {co : Collaborators}.

(** [_get_mask_mog2] applies the subtractor to the frame once, whether it
    discards the mask or not. *)
Lemma mog2_applies_subtractor_once (subt : Subtractor) (frame : GrayscaleImage)
  (params : SegmenterParameters) :
  fst (_get_mask_mog2 subt frame params) = fst (subtractor_apply subt frame).
Proof.
  unfold _get_mask_mog2, foreground_cleaned.
  destruct (subtractor_apply subt frame) as [subt' mask]. simpl.
  destruct (full_of_movement truth_Z _ params); reflexivity.
Qed.

Lemma feed_app (sub : Subtractor) (frames frames' : list ColorImage) :
  feed sub (frames ++ frames') = feed (feed sub frames) frames'.
Proof. unfold feed. apply fold_left_app. Qed.

Lemma rolling_start_sound (s : Segmenter) (v : Video) (from_frame_n : Z)
  (prev : option Blobs) (r : Rolling) :
  video s = VideoLoaded v ->
  rolling_start s from_frame_n prev = Ok r ->
  sound_generator v (movement_detection_history (params s)) (Suspended r).
Proof.
  intros Hv E.
  destruct (rolling_start_ok _ _ _ E) as (v' & p & Hv' & Hrange & _ & Hw & Hr).
  rewrite Hv in Hv'. injection Hv' as <-.
  split.
  - exists (Z.to_nat from_frame_n). rewrite Hr. simpl. f_equal. lia.
  - unfold warm_up in Hw.
    destruct (warm_up_loop_feeds _ _ _ Hw) as (frames & Hmap & Hsub).
    exists from_frame_n, frames. split; [lia |]. split; [| exact Hsub].
    rewrite Hr. simpl. rewrite app_nil_r. exact Hmap.
Qed.

Lemma rolling_next_sound (s : Segmenter) (v : Video) (r : Rolling) s' g' out :
  keys_within v s ->
  sound_generator v (movement_detection_history (params s)) (Suspended r) ->
  rolling_next s r = (s', g', out) ->
  keys_within v s' /\
  sound_generator v (movement_detection_history (params s)) g'.
Proof.
  intros Hkeys [[j Hp] (from_frame_n & frames & Hfrom & Hmap & Hsub)].
  unfold rolling_next.
  destruct (pending r) as [| [frame_n frame] rest] eqn:P.
  - intros [= <- <- <-]. split; [exact Hkeys |]. split; exact I.
  - symmetry in Hp. apply enumerate_skipn in Hp as (-> & Hnth & ->).
    destruct (dict_get (Z.of_nat j) (frames_with_blobs s)) as [stored |] eqn:G.
    + intros [= <- <- <-]. split; [exact Hkeys |]. split.
      * exists (S j). reflexivity.
      * exists from_frame_n, frames. simpl. auto.
    + destruct (Segmenter_get_mask s (subtractor r) (rgb2gray frame)) as [sub' mask] eqn:M.
      destruct (Segmenter_get_blobs s (rgb2gray frame) mask (prev_blobs r)) as [blobs | e].
      * intros [= <- <- <-]. split; [| split].
        -- intros k. simpl. rewrite dict_set_absent by exact G.
           rewrite dict_keys_app, in_app_iff. simpl.
           intros [Hin | [<- | []]]; [auto |].
           assert (Hlt : (j < List.length v)%nat) by (apply nth_error_Some; congruence).
           lia.
        -- exists (S j). reflexivity.
        -- exists from_frame_n, (frames ++ [frame]). split; [exact Hfrom |]. simpl. split.
           ++ unfold frames_at in *. rewrite map_app, Hmap, !map_app, <- app_assoc.
              cbn [map fst]. now rewrite Nat2Z.id, Hnth.
           ++ rewrite feed_app, <- Hsub. simpl.
              unfold Segmenter_get_mask in M.
              pose proof (mog2_applies_subtractor_once (subtractor r) (rgb2gray frame) (params s))
                as Once.
              rewrite M in Once. simpl in Once. now rewrite Once.
      * intros [= <- <- <-]. split; [exact Hkeys |]. split; exact I.
Qed.

Lemma next_sound (s : Segmenter) (v : Video) (g : generator) s' g' out :
  video s = VideoLoaded v ->
  keys_within v s ->
  sound_generator v (movement_detection_history (params s)) g ->
  next s g = (s', g', out) ->
  keys_within v s' /\
  sound_generator v (movement_detection_history (params s)) g'.
Proof.
  intros Hv Hkeys Hg.
  assert (Start : forall from_frame_n prev,
             start_then_next s from_frame_n prev = (s', g', out) ->
             keys_within v s' /\
             sound_generator v (movement_detection_history (params s)) g').
  { intros from_frame_n prev. unfold start_then_next.
    destruct (rolling_start s from_frame_n prev) as [r | e] eqn:E.
    - apply rolling_next_sound; [exact Hkeys |].
      eapply rolling_start_sound; eauto.
    - intros [= <- <- <-]. split; [exact Hkeys |]. split; exact I. }
  destruct g as [from_frame_n prev | | r |]; simpl.
  - apply Start.
  - destruct (py_max (dict_keys (frames_with_blobs s))); [apply Start |].
    intros [= <- <- <-]. split; [exact Hkeys |]. split; exact I.
  - apply rolling_next_sound; assumption.
  - intros [= <- <- <-]. split; [exact Hkeys |]. split; exact I.
Qed.

Lemma act_sound (v : Video) (history : Z) (w : session) (a : action) :
  sound_session v history w -> sound_session v history (act w a).
Proof.
  intros (Hv & Hh & Hkeys & Hgens).
  assert (Created : forall g, sound_generator v history g ->
                              Forall (sound_generator v history) (gens w ++ [g])).
  { intros g Hg. apply Forall_app. split; [exact Hgens | now constructor]. }
  destruct a as [from_frame_n prev | | i]; simpl.
  - split; [exact Hv |]. split; [exact Hh |]. split; [exact Hkeys |].
    apply Created. split; exact I.
  - split; [exact Hv |]. split; [exact Hh |]. split; [exact Hkeys |].
    apply Created. split; exact I.
  - destruct (nth_error (gens w) i) as [g |] eqn:N.
    2: { split; [exact Hv |]. split; [exact Hh |]. split; assumption. }
    destruct (next (seg w) g) as [[s' g'] out] eqn:Nx.
    assert (Hg : sound_generator v history g).
    { apply nth_error_In in N. rewrite Forall_forall in Hgens. auto. }
    destruct (next_same_video _ _ _ _ _ Nx) as (_ & Hv' & Hp' & _ & _).
    rewrite <- Hh in Hg.
    destruct (next_sound _ _ _ _ _ _ Hv Hkeys Hg Nx) as [Hkeys' Hg'].
    rewrite Hh in Hg'.
    split; [simpl; congruence |]. split; [simpl; congruence |].
    split; [exact Hkeys' |]. simpl.
    apply Forall_list_set; assumption.
Qed.

Lemma run_sound (v : Video) (history : Z) (actions : list action) :
  forall w, sound_session v history w -> sound_session v history (run w actions).
Proof.
  induction actions as [| a actions IH]; intros w Hw; simpl; [exact Hw |].
  apply IH, act_sound, Hw.
Qed.

Lemma new_session_sound (s : Segmenter) (v : Video) :
  video s = VideoLoaded v ->
  keys_within v s ->
  sound_session v (movement_detection_history (params s)) (new_session s).
Proof.
  intros Hv Hkeys. split; [exact Hv |]. split; [reflexivity |].
  split; [exact Hkeys | constructor].
Qed.

Lemma run_keys_within (s0 : Segmenter) (v : Video) (actions : list action) :
  video s0 = VideoLoaded v ->
  keys_within v s0 ->
  keys_within v (seg (run (new_session s0) actions)).
Proof.
  intros Hv Hkeys.
  destruct (run_sound v _ actions _ (new_session_sound s0 v Hv Hkeys)) as (_ & _ & H & _).
  exact H.
Qed.

(** X12.  The table never holds an index that is not a frame of the video:
    after [cls(video, params)], whatever generators are created, wherever
    they start and in whatever order they are advanced, every index ever
    stored in [frames_with_blobs] is at least 0 and below [video_length]. *)
Theorem table_stays_within_video (c : SegmenterClass) (v : Video)
  (p : SegmenterParameters) (s0 : Segmenter) (actions : list action) (k : Z) :
  Segmenter_init c v p = Ok s0 ->
  In k (dict_keys (frames_with_blobs (seg (run (new_session s0) actions)))) ->
  0 <= k < video_length s0.
Proof.
  intros Hinit Hin.
  unfold Segmenter_init in Hinit.
  destruct (nth_error v 0); simpl in Hinit; [| discriminate].
  injection Hinit as <-. simpl.
  refine (run_keys_within _ v actions _ _ k Hin); [reflexivity |].
  intros k' [].
Qed.

End Invariants.

(** X12 on two frames, after the session that restarts at frame 0. *)
Lemma table_stays_within_video_witness :
  Segmenter_init (co := World.co) LogWSegmenter World.two_frames World.the_params
  = Ok (World.fresh World.two_frames) /\
  In 1 (dict_keys (frames_with_blobs (seg World.after_restart))) /\
  0 <= 1 < video_length (World.fresh World.two_frames).
Proof.
  split; [reflexivity |]. split; [right; left; reflexivity |].
  apply (table_stays_within_video (cv := World.cv) (sk := World.sk) (sp := World.sp)
           (co := World.co)
           LogWSegmenter World.two_frames World.the_params
           (World.fresh World.two_frames) World.restart 1 eq_refl).
  right; left; reflexivity.
Defined.


(** ** Segmenters that cannot compute *)

Section NeedsVideo.
Context {cv : Cv2} {sk : Skimage} {sp : Scipy} {co : Collaborators}.

Lemma rolling_start_without_video (s : Segmenter) (from_frame_n : Z)
  (prev : option Blobs) :
  (forall v, video s <> VideoLoaded v) ->
  exists e, loaded_video s = Raise e /\ rolling_start s from_frame_n prev = Raise e.
Proof.
  intros Hno. unfold rolling_start, loaded_video.
  destruct (video s) as [| | v]; simpl; eauto. now destruct (Hno v).
Qed.

Lemma next_without_video (s : Segmenter) (g : generator) :
  (forall v, video s <> VideoLoaded v) ->
  (forall r, g <> Suspended r) ->
  exists out, next s g = (s, Finished, out) /\ forall item, out <> Yield item.
Proof.
  intros Hno Hg. destruct g as [from_frame_n prev | | r |]; simpl.
  - unfold start_then_next.
    destruct (rolling_start_without_video s from_frame_n prev Hno) as (e & _ & ->).
    eexists. split; [reflexivity | discriminate].
  - destruct (py_max (dict_keys (frames_with_blobs s))) as [last |].
    + unfold start_then_next.
      destruct (rolling_start_without_video s (last + 1) None Hno) as (e & _ & ->).
      eexists. split; [reflexivity | discriminate].
    + eexists. split; [reflexivity | discriminate].
  - now destruct (Hg r).
  - eexists. split; [reflexivity | discriminate].
Qed.

Lemma act_without_video (w : session) (a : action) :
  (forall v, video (seg w) <> VideoLoaded v) ->
  idle w ->
  seg (act w a) = seg w /\ visited (act w a) = visited w /\ idle (act w a).
Proof.
  intros Hno Hidle. destruct a as [from_frame_n prev | | i]; simpl.
  - repeat split. apply Forall_app. split; [exact Hidle | now constructor].
  - repeat split. apply Forall_app. split; [exact Hidle | now constructor].
  - destruct (nth_error (gens w) i) as [g |] eqn:N; [| auto].
    assert (Hg : forall r, g <> Suspended r).
    { intros r ->. apply nth_error_In in N. unfold idle in Hidle.
      rewrite Forall_forall in Hidle. exact (Hidle _ N). }
    destruct (next_without_video (seg w) g Hno Hg) as (out & -> & Hout).
    simpl. split; [reflexivity |]. split.
    + destruct out as [item | |]; [now destruct (Hout item) | reflexivity | reflexivity].
    + apply Forall_list_set; [exact Hidle | exact I].
Qed.

Lemma run_without_video (actions : list action) :
  forall w : session,
    (forall v, video (seg w) <> VideoLoaded v) ->
    idle w ->
    seg (run w actions) = seg w /\ visited (run w actions) = visited w.
Proof.
  induction actions as [| a actions IH]; intros w Hno Hidle; simpl; [auto |].
  destruct (act_without_video w a Hno Hidle) as (Hs & Hvis & Hidle').
  destruct (IH (act w a)) as [Hs' Hvis']; [now rewrite Hs | exact Hidle' |].
  split; congruence.
Qed.

Lemma decode_fields (c : SegmenterClass) (d : Serial) (s : Segmenter) :
  decode c d = Ok s ->
  cls s = c /\ video s = VideoUnset /\
  params s = SegmenterParameters_of_dict (ser_parameters d) /\
  video_length s = ser_video_length d /\ video_shape s = ser_video_shape d.
Proof.
  unfold decode. destruct (for_each _ _ _); simpl; [| discriminate].
  intros [= <-]. simpl. auto.
Qed.

(** X14.  A segmenter that [decode] has built has no video: until
    [set_video] is called, the first advance of every generator raises, an
    AttributeError because [__video] was never assigned (or, for
    [segment_rolling_continue] on an empty table, the ValueError of [max]);
    and whatever generators are created and advanced, nothing is yielded and
    the segmenter stays as it was decoded. *)
Theorem decoded_segmenter_needs_set_video (c : SegmenterClass) (d : Serial)
  (s : Segmenter) :
  decode c d = Ok s ->
  (forall from_frame_n prev,
      next s (segment_rolling_from from_frame_n prev)
      = (s, Finished, Raised AttributeError_video)) /\
  next s segment_rolling_continue
  = (s, Finished, Raised match frames_with_blobs s with
                         | [] => ValueError_max_empty
                         | _ :: _ => AttributeError_video
                         end) /\
  (forall actions,
      seg (run (new_session s) actions) = s /\
      visited (run (new_session s) actions) = []).
Proof.
  intros D. destruct (decode_fields c d s D) as (_ & Hv & _).
  assert (Start : forall from_frame_n prev,
             next s (segment_rolling_from from_frame_n prev)
             = (s, Finished, Raised AttributeError_video)).
  { intros from_frame_n prev. simpl.
    unfold start_then_next, rolling_start, loaded_video. now rewrite Hv. }
  split; [exact Start |]. split.
  - unfold segment_rolling_continue. simpl.
    destruct (frames_with_blobs s) as [| [k blobs] t]; simpl; [reflexivity |].
    exact (Start _ None).
  - intros actions. apply (run_without_video actions (new_session s)).
    + simpl. intros v. rewrite Hv. discriminate.
    + constructor.
Qed.
End NeedsVideo.

(** X14 on the record of a table of two frames. *)
Lemma decoded_segmenter_needs_set_video_witness :
  exists s : Segmenter (co := World.co),
    decode LogWSegmenter (encode (seg World.after_restart)) = Ok s /\
    next (cv := World.cv) (sk := World.sk) (sp := World.sp)
         s (segment_rolling_continue (cv := World.cv) (co := World.co))
    = (s, Finished, Raised AttributeError_video).
Proof.
  eexists. split; [reflexivity |].
  exact (proj1 (proj2 (decoded_segmenter_needs_set_video
                         (cv := World.cv) (sk := World.sk) (sp := World.sp)
                         LogWSegmenter (encode (seg World.after_restart)) _ eq_refl))).
Defined.

Section Frozen.
Context {cv : Cv2} {sk : Skimage} {sp : Scipy} {co : Collaborators}.

Lemma run_snoc (w : session) (actions : list action) (a : action) :
  run w (actions ++ [a]) = act (run w actions) a.
Proof. unfold run. now rewrite fold_left_app. Qed.

Lemma rolling_next_base (s : Segmenter) (r : Rolling) :
  cls s = BaseSegmenter ->
  exists g' out, rolling_next s r = (s, g', out).
Proof.
  intros Hc. unfold rolling_next.
  destruct (pending r) as [| [frame_n frame] rest]; [eauto |].
  destruct (dict_get frame_n (frames_with_blobs s)); [eauto |].
  destruct (Segmenter_get_mask s (subtractor r) (rgb2gray frame)) as [sub' mask].
  unfold Segmenter_get_blobs. rewrite Hc. eauto.
Qed.

Lemma next_base (s : Segmenter) (g : generator) :
  cls s = BaseSegmenter ->
  exists g' out, next s g = (s, g', out).
Proof.
  intros Hc.
  assert (Start : forall from_frame_n prev,
             exists g' out, start_then_next s from_frame_n prev = (s, g', out)).
  { intros from_frame_n prev. unfold start_then_next.
    destruct (rolling_start s from_frame_n prev) as [r | e]; [| eauto].
    now apply rolling_next_base. }
  destruct g as [from_frame_n prev | | r |]; simpl.
  - apply Start.
  - destruct (py_max (dict_keys (frames_with_blobs s))); [apply Start | eauto].
  - now apply rolling_next_base.
  - eauto.
Qed.

(** X15.  The class [Segmenter] itself has no extractor.  On such a
    segmenter a generator that comes to a frame without an entry raises
    NotImplementedError, after the subtractor has been given the frame, and
    ends; whatever generators are created and advanced, the segmenter stays
    as it was. *)
Theorem base_segmenter_computes_nothing (s : Segmenter) :
  cls s = BaseSegmenter ->
  (forall (r : Rolling) (frame_n : Z) (frame : ColorImage) (rest : list (Z * ColorImage)),
      pending r = (frame_n, frame) :: rest ->
      dict_get frame_n (frames_with_blobs s) = None ->
      next s (Suspended r) = (s, Finished, Raised NotImplementedError)) /\
  (forall (w : session) (actions : list action),
      seg w = s -> seg (run w actions) = s).
Proof.
  intros Hc. split.
  - intros r frame_n frame rest Hp Hg. simpl. unfold rolling_next. rewrite Hp, Hg.
    destruct (Segmenter_get_mask s (subtractor r) (rgb2gray frame)) as [sub' mask].
    unfold Segmenter_get_blobs. now rewrite Hc.
  - intros w actions. revert w.
    induction actions as [| a actions IH]; intros w Hw; simpl; [exact Hw |].
    apply IH. destruct a as [from_frame_n prev | | i]; simpl; auto.
    destruct (nth_error (gens w) i) as [g |]; [| exact Hw].
    rewrite Hw. destruct (next_base s g Hc) as (g' & out & ->). reflexivity.
Qed.

(** X16.  A finished segmenter whose video has [video_length] frames is
    never changed again: whatever generators are created on it, wherever
    they start and however they are advanced, they only replay the table. *)
Theorem finished_segmenter_is_frozen (s : Segmenter) (v : Video)
  (actions : list action) :
  is_finished s = true ->
  video s = VideoLoaded v ->
  video_length s = Z.of_nat (List.length v) ->
  seg (run (new_session s) actions) = s.
Proof.
  intros Hf Hv Hlen.
  apply is_finished_segmented in Hf as [Hpos Hm].
  assert (Hkeys : keys_within v s).
  { intros k Hin. unfold segmented_up_to in Hm. rewrite Hm in Hin.
    apply In_range in Hin. lia. }
  induction actions as [| a actions IH] using rev_ind; [reflexivity |].
  pose proof (run_keys_within s v (actions ++ [a]) Hv Hkeys) as Hwithin.
  rewrite run_snoc in *.
  destruct a as [from_frame_n prev | | i]; simpl in *; auto.
  destruct (nth_error (gens (run (new_session s) actions)) i) as [g |]; [| exact IH].
  rewrite IH in *.
  destruct (next s g) as [[s' g'] out] eqn:N. simpl in *.
  apply next_effect in N as [[-> _] | (k & blobs & Hnone & -> & _)]; [reflexivity |].
  exfalso.
  assert (Hk : 0 <= k < Z.of_nat (List.length v)).
  { apply Hwithin. simpl. unfold dict_keys. rewrite map_app. apply in_or_app.
    right. now left. }
  apply dict_get_None in Hnone. apply Hnone.
  unfold segmented_up_to in Hm. rewrite Hm. apply In_range. lia.
Qed.
End Frozen.

(** X15 on a [Segmenter] over two frames. *)
Lemma base_segmenter_computes_nothing_witness :
  cls Scenes.abstract_segmenter = BaseSegmenter /\
  seg (run (cv := World.cv) (sk := World.sk) (sp := World.sp)
           (new_session Scenes.abstract_segmenter) World.restart)
  = Scenes.abstract_segmenter.
Proof.
  split; [reflexivity |].
  apply (proj2 (base_segmenter_computes_nothing (cv := World.cv) (sk := World.sk)
                  (sp := World.sp) Scenes.abstract_segmenter eq_refl)).
  reflexivity.
Defined.

(** X16 on the table finished by one pass, under a session that starts at
    frame 1 and then at frame 0. *)
Lemma finished_segmenter_is_frozen_witness :
  is_finished (seg World.after_restart) = true /\
  seg (run (cv := World.cv) (sk := World.sk) (sp := World.sp)
           (new_session (seg World.after_restart)) World.backwards)
  = seg World.after_restart.
Proof.
  split; [reflexivity |].
  apply (finished_segmenter_is_frozen (cv := World.cv) (sk := World.sk) (sp := World.sp)
           (seg World.after_restart) World.two_frames World.backwards);
    reflexivity.
Defined.

(** ** Frames without blobs, and the blobs of the previous frame *)

Section PreviousBlobs.
Context {cv : Cv2} {sk : Skimage} {sp : Scipy} {co : Collaborators}.




Lemma get_blobs_same_class (s s' : Segmenter) (gray_frame : GrayscaleImage)
  (mask : BinaryMask) (prev : Blobs) :
  cls s' = cls s -> params s' = params s ->
  Segmenter_get_blobs s' gray_frame mask prev = Segmenter_get_blobs s gray_frame mask prev.
Proof. intros Hc Hp. unfold Segmenter_get_blobs. now rewrite Hc, Hp. Qed.

Lemma collect_same_extraction (fuel : nat) :
  forall (s : Segmenter) (r1 r2 : Rolling),
    pending r1 = pending r2 ->
    subtractor r1 = subtractor r2 ->
    same_extraction s (prev_blobs r1) (prev_blobs r2) ->
    collect fuel s (Suspended r1) = collect fuel s (Suspended r2).
Proof.
  induction fuel as [| fuel IH]; intros s r1 r2 Hp Hs He; simpl; [reflexivity |].
  unfold rolling_next. rewrite <- Hp, <- Hs.
  destruct (pending r1) as [| [frame_n frame] rest]; [reflexivity |].
  destruct (dict_get frame_n (frames_with_blobs s)) as [stored |].
  - rewrite (IH s (mk_rolling rest (prev_blobs r1) (subtractor r1) (extract_calls r1))
               (mk_rolling rest (prev_blobs r2) (subtractor r1) (extract_calls r2)));
      auto.
  - destruct (Segmenter_get_mask s (subtractor r1) (rgb2gray frame)) as [sub' mask].
    rewrite <- (He (rgb2gray frame) mask).
    destruct (Segmenter_get_blobs s (rgb2gray frame) mask (prev_blobs r1))
      as [blobs | e]; [| reflexivity].
    rewrite (IH _ (mk_rolling rest blobs sub' (extract_calls r1 ++ [(frame_n, prev_blobs r1)]))
               (mk_rolling rest blobs sub' (extract_calls r2 ++ [(frame_n, prev_blobs r2)])));
      auto.
    intros f m. reflexivity.
Qed.

Lemma pass_same_extraction (s : Segmenter) (from_frame_n : Z) (p1 p2 : Blobs)
  (fuel : nat) :
  same_extraction s p1 p2 ->
  collect fuel s (segment_rolling_from from_frame_n (Some p1))
  = collect fuel s (segment_rolling_from from_frame_n (Some p2)).
Proof.
  intros He. destruct fuel as [| fuel]; [reflexivity |].
  assert (Same : forall r1 r2 : Rolling,
             pending r1 = pending r2 -> subtractor r1 = subtractor r2 ->
             same_extraction s (prev_blobs r1) (prev_blobs r2) ->
             (let '(s', g', out) := rolling_next s r1 in
              match out with
              | Yield item =>
                  let '(s'', items, e) := collect fuel s' g' in (s'', item :: items, e)
              | StopIteration => (s', [], Exhausted)
              | Raised e => (s', [], Failed e)
              end)
             = (let '(s', g', out) := rolling_next s r2 in
                match out with
                | Yield item =>
                    let '(s'', items, e) := collect fuel s' g' in (s'', item :: items, e)
                | StopIteration => (s', [], Exhausted)
                | Raised e => (s', [], Failed e)
                end)).
  { intros r1 r2 Hp Hs Hx.
    exact (collect_same_extraction (S fuel) s r1 r2 Hp Hs Hx). }
  simpl. unfold start_then_next, rolling_start.
  destruct (loaded_video s) as [v | e]; simpl; [| reflexivity].
  destruct ((from_frame_n <? 0) || (video_length s <=? from_frame_n)); [reflexivity |].
  assert (Hprev : (exists p, previous_blobs s from_frame_n (Some p1) = Ok p /\
                             previous_blobs s from_frame_n (Some p2) = Ok p) \/
                  (previous_blobs s from_frame_n (Some p1) = Ok p1 /\
                   previous_blobs s from_frame_n (Some p2) = Ok p2)).
  { unfold previous_blobs. destruct (from_frame_n =? 0); [eauto |].
    destruct (frames_with_blobs s) as [| kb t]; [auto |].
    destruct (dict_get (from_frame_n - 1) (kb :: t)); eauto. }
  destruct Hprev as [(p & -> & ->) | [-> ->]]; simpl.
  - reflexivity.
  - destruct (warm_up s v from_frame_n) as [sub | e]; simpl; [| reflexivity].
    apply Same; auto.
Qed.

(** X18.  A [DohSegmenter] makes no use of the blobs of the previous
    frame: whatever list is passed to [segment_rolling_from], the pass
    yields the same pairs, ends the same way and leaves the same table. *)
Theorem doh_pass_ignores_prev_blobs (s : Segmenter) (from_frame_n : Z)
  (p1 p2 : Blobs) (fuel : nat) :
  cls s = DohSegmenter ->
  collect fuel s (segment_rolling_from from_frame_n (Some p1))
  = collect fuel s (segment_rolling_from from_frame_n (Some p2)).
Proof.
  intros Hc. apply pass_same_extraction.
  intros f m. unfold Segmenter_get_blobs. now rewrite Hc.
Qed.

Lemma nth_error_removelast {A} (l : list A) (i : nat) (x : A) :
  nth_error (removelast l) i = Some x -> nth_error l i = Some x.
Proof.
  revert i. induction l as [| y l IH]; intros i; [now destruct i |].
  simpl. destruct l as [| z l]; [now destruct i |].
  destruct i as [| i]; simpl; [auto |]. apply IH.
Qed.

Lemma close_indices_isolated (prev : Blobs) :
  isolated prev -> close_indices prev (blob_points prev) = Ok [].
Proof.
  intros Hiso. unfold close_indices.
  match goal with |- context [for_each ?b _ _] => set (body := b) end.
  assert (Loop : forall (l : Blobs) (n : nat) (acc : list nat),
             (forall i blob, nth_error l i = Some blob ->
                             nth_error (removelast prev) (n + i) = Some blob) ->
             for_each body (combine (seq n (List.length l)) l) acc = Ok acc).
  { induction l as [| blob l IH]; intros n acc Hl; simpl; [reflexivity |].
    pose proof (Hl 0%nat blob eq_refl) as Hn. rewrite Nat.add_0_r in Hn.
    pose proof (nth_error_removelast _ _ _ Hn) as Hn'.
    assert (B : body acc (n, blob) = Ok acc).
    { unfold body. simpl. unfold blob_points at 1.
      rewrite (map_nth_error _ _ _ Hn'). simpl.
      destruct (Hiso n blob Hn) as [E | E]; fold (blob_points prev); rewrite E; simpl.
      - rewrite Nat.eqb_refl. simpl. now rewrite app_nil_r.
      - now rewrite app_nil_r. }
    rewrite B. simpl. apply IH.
    intros i b Hi. specialize (Hl (S i) b Hi). now rewrite Nat.add_succ_r in Hl. }
  unfold enumerate_nat. rewrite (Loop (removelast prev) 0%nat []); [reflexivity | auto].
Qed.

Lemma logw_isolated (frame : GrayscaleImage) (movement_mask : BinaryMask)
  (params : SegmenterParameters) (prev : Blobs) :
  isolated prev ->
  _get_blobs_logw frame movement_mask params prev
  = _get_blobs_logw frame movement_mask params [].
Proof.
  intros Hiso. unfold _get_blobs_logw.
  destruct (negb (np_any truth_bool movement_mask)); [reflexivity |].
  destruct (negb (np_any truth_Q _)); [reflexivity |].
  destruct (skfilters_threshold_isodata _) as [t |]; [| reflexivity].
  assert (W : forall im,
             logw_watershed_stage frame im params prev
             = logw_watershed_stage frame im params []).
  { intros im. unfold logw_watershed_stage.
    destruct (1 <? List.length prev)%nat; [| reflexivity].
    fold (blob_points prev). rewrite (close_indices_isolated prev Hiso). reflexivity. }
  now rewrite W.
Qed.

(** X19.  The first extractor looks at the previous blobs only to find
    those that were close to each other.  When no blob of the list, the last
    apart, has another blob within its clear radius, and so for a list of
    one blob, the extractor returns what it returns for the empty list; and
    a pass that is started with such a list is, for every class of
    segmenter, the pass started with the empty list. *)
Theorem isolated_prev_blobs_do_not_matter (prev : Blobs) :
  isolated prev ->
  (forall frame movement_mask params,
      _get_blobs_logw frame movement_mask params prev
      = _get_blobs_logw frame movement_mask params []) /\
  (forall (s : Segmenter) (from_frame_n : Z) (fuel : nat),
      collect fuel s (segment_rolling_from from_frame_n (Some prev))
      = collect fuel s (segment_rolling_from from_frame_n (Some []))).
Proof.
  intros Hiso. split.
  - intros frame movement_mask params. now apply logw_isolated.
  - intros s from_frame_n fuel. apply pass_same_extraction.
    intros f m. unfold Segmenter_get_blobs.
    destruct (cls s); [reflexivity | now apply logw_isolated | reflexivity].
Qed.
End PreviousBlobs.


(** X18 on a [DohSegmenter] over two frames, started at frame 1. *)
Lemma doh_pass_ignores_prev_blobs_witness :
  cls Scenes.doh_segmenter = DohSegmenter /\
  collect (cv := World.cv) (sk := World.sk) (sp := World.sp) 3 Scenes.doh_segmenter
          (segment_rolling_from (co := World.co) 1 (Some [World.the_blob]))
  = collect (cv := World.cv) (sk := World.sk) (sp := World.sp) 3 Scenes.doh_segmenter
            (segment_rolling_from (co := World.co) 1 (Some [])).
Proof.
  split; [reflexivity |].
  apply (doh_pass_ignores_prev_blobs (cv := World.cv) (sk := World.sk) (sp := World.sp)
           Scenes.doh_segmenter 1 [World.the_blob] [] 3 eq_refl).
Defined.

(** X19 on two blobs that are a hundred pixels apart. *)
Lemma isolated_prev_blobs_do_not_matter_witness :
  isolated (sp := World.sp) (co := World.co) Scenes.far_apart /\
  collect (cv := World.cv) (sk := World.sk) (sp := World.sp) 3
          (World.fresh World.two_frames)
          (segment_rolling_from (co := World.co) 1 (Some Scenes.far_apart))
  = collect (cv := World.cv) (sk := World.sk) (sp := World.sp) 3
            (World.fresh World.two_frames)
            (segment_rolling_from (co := World.co) 1 (Some [])).
Proof.
  assert (H : isolated (sp := World.sp) (co := World.co) Scenes.far_apart).
  { intros i blob Hi. destruct i as [| i].
    - injection Hi as <-. left. reflexivity.
    - destruct i; discriminate Hi. }
  split; [exact H |].
  apply (proj2 (isolated_prev_blobs_do_not_matter
                  (cv := World.cv) (sk := World.sk) (sp := World.sp) (co := World.co)
                  Scenes.far_apart H)).
Defined.

(** ** Reading a record *)

Section DictUpdates.
Context {K V : Type} `{EqKey K}.



End DictUpdates.

Section Reading.
Context {cv : Cv2} {sk : Skimage} {sp : Scipy} {co : Collaborators}.








End Reading.


Section PropertyDelegates.
Context {cv : Cv2} {sk : Skimage} {sp : Scipy} {co : Collaborators}.

Lemma collect_property_rolling (fuel : nat) :
  forall (s : Segmenter) (g : generator),
    collect_property fuel s (Property_rolling g)
    = (let '(s', items, e) := collect fuel s g in (s', items, Some e)).
Proof.
  induction fuel as [| fuel IH]; intros s g; simpl; [reflexivity |].
  destruct (next s g) as [[s' g'] out].
  destruct out as [item | | e]; try reflexivity.
  rewrite IH. now destruct (collect fuel s' g') as [[s'' items] e].
Qed.

(** X21.  On a segmenter that is not finished, iterating the property
    [frames_with_blobs] is iterating [segment_rolling_from(0)]: the same
    pairs, the same table afterwards, the same ending, also when the table
    becomes complete on the way.  The dictionary is not iterated, so its
    growth raises nothing. *)
Theorem property_segments_unfinished_table (s : Segmenter) (fuel : nat) :
  is_finished s = false ->
  collect_property fuel s frames_with_blobs_property
  = (let '(s', items, e) := collect fuel s (segment_rolling_from 0 None) in
     (s', items, Some e)).
Proof.
  intros Hf. destruct fuel as [| fuel]; [reflexivity |].
  unfold frames_with_blobs_property.
  cbn [collect_property collect property_next]. rewrite Hf.
  destruct (next s (segment_rolling_from 0 None)) as [[s' g'] out].
  destruct out as [item | | e]; try reflexivity.
  rewrite collect_property_rolling.
  now destruct (collect fuel s' g') as [[s'' items] e].
Qed.
End PropertyDelegates.

(** X21 on a new segmenter over two frames. *)
Lemma property_segments_unfinished_table_witness :
  is_finished (World.fresh World.two_frames) = false /\
  collect_property (cv := World.cv) (sk := World.sk) (sp := World.sp) 3
                   (World.fresh World.two_frames) (frames_with_blobs_property (co := World.co))
  = (seg World.after_restart, frames_with_blobs (seg World.after_restart), Some Exhausted).
Proof.
  split; [reflexivity |].
  rewrite (property_segments_unfinished_table (cv := World.cv) (sk := World.sk)
             (sp := World.sp) (World.fresh World.two_frames) 3 eq_refl).
  reflexivity.
Defined.

(** * The session of the tracker GUI: properties *)

From Stdlib Require Import Permutation.

Section StateOrder.
Import GuiSession.

(** X22.  The four comparisons of [State] never raise, and they are the
    order in which the states are declared, New before GotParameters before
    Tracking before DetectingLeaves before Finished: [<] is a strict total
    order, [>] is its converse, and [<=] and [>=], which the code writes as
    the negations of [>] and [<], are that order with equality. *)
Theorem State_comparisons_are_the_declared_order :
  (forall a b : State,
      exists lt gt : bool,
        State_lt a b = Some lt /\ State_gt a b = Some gt /\
        State_gt b a = Some lt /\
        State_le a b = Some (negb gt) /\ State_ge a b = Some (negb lt)) /\
  (forall a b : State,
      (State_lt a b = Some true /\ a <> b /\ State_gt a b = Some false) \/
      (State_lt a b = Some false /\ a = b /\ State_gt a b = Some false) \/
      (State_lt a b = Some false /\ a <> b /\ State_gt a b = Some true)) /\
  (forall a b c : State,
      State_lt a b = Some true -> State_lt b c = Some true ->
      State_lt a c = Some true) /\
  (forall a b : State,
      (State_le a b = Some true <-> State_lt a b = Some true \/ a = b) /\
      (State_ge a b = Some true <-> State_gt a b = Some true \/ a = b)) /\
  State_lt New GotParameters = Some true /\
  State_lt GotParameters Tracking = Some true /\
  State_lt Tracking DetectingLeaves = Some true /\
  State_lt DetectingLeaves Finished = Some true.
Proof.
  split; [| split; [| split; [| split]]].
  - intros a b. destruct a, b; do 2 eexists; repeat split; reflexivity.
  - intros a b.
    destruct a, b;
      first [ left; split; [reflexivity | split; [discriminate | reflexivity]]
            | right; left; split; [reflexivity | split; reflexivity]
            | right; right; split; [reflexivity | split; [discriminate | reflexivity]] ].
  - intros a b c. destruct a, b, c; vm_compute; intros; congruence.
  - intros a b. destruct a, b; vm_compute; split; split;
      solve [ intros; auto | intros [? | ?]; congruence | intros; congruence
            | intros; left; reflexivity | intros; right; reflexivity ].
  - repeat split; reflexivity.
Qed.
End StateOrder.

(** X22 on Tracking and Finished. *)
Lemma State_comparisons_are_the_declared_order_witness :
  GuiSession.State_lt GuiSession.Tracking GuiSession.DetectingLeaves = Some true /\
  GuiSession.State_lt GuiSession.DetectingLeaves GuiSession.Finished = Some true /\
  GuiSession.State_lt GuiSession.Tracking GuiSession.Finished = Some true.
Proof.
  split; [reflexivity |]. split; [reflexivity |].
  apply (proj1 (proj2 (proj2 State_comparisons_are_the_declared_order))
               GuiSession.Tracking GuiSession.DetectingLeaves GuiSession.Finished);
    reflexivity.
Defined.
